(** * borkstudio: the owner's link-request flow and the link page

    A shallow embedding of [src/index.js] (the Telegram bot with its
    small Express server) and the properties of its specification.

    JavaScript strings are sequences of UTF-16 code units and are
    modelled as [list Z]; string literals of the source are written as
    Rocq strings (UTF-8 bytes) and decoded by [js].  The PostgreSQL
    tables are finite maps.  Handlers are written in a small state and
    exception monad over a [world] that holds the configuration, the
    database, the fault schedule of the database driver, the source of
    [Math.random] and the trace of outbound calls. *)

From Stdlib Require Import ZArith String Ascii List Lia ZifyBool Bool.
From stdpp Require Import gmap list.
Import ListNotations.
Local Open Scope Z_scope.

(** ** JavaScript strings *)

Abbreviation jsstring := (list Z).

(** UTF-8 bytes of a source literal to UTF-16 code units. *)
Fixpoint utf16_of_utf8 (bs : list Z) : jsstring :=
  match bs with
  | [] => []
  | b1 :: r1 =>
    if b1 <? 128 then b1 :: utf16_of_utf8 r1
    else if b1 <? 224 then
      match r1 with
      | b2 :: r2 => ((b1 - 192) * 64 + (b2 - 128)) :: utf16_of_utf8 r2
      | [] => [65533]
      end
    else if b1 <? 240 then
      match r1 with
      | b2 :: b3 :: r3 =>
        ((b1 - 224) * 4096 + (b2 - 128) * 64 + (b3 - 128)) :: utf16_of_utf8 r3
      | _ => [65533]
      end
    else
      match r1 with
      | b2 :: b3 :: b4 :: r4 =>
        let cp := (b1 - 240) * 262144 + (b2 - 128) * 4096
                  + (b3 - 128) * 64 + (b4 - 128) in
        (55296 + (cp - 65536) / 1024) :: (56320 + (cp - 65536) mod 1024)
          :: utf16_of_utf8 r4
      | _ => [65533]
      end
  end.

Definition bytes_of (s : string) : list Z :=
  List.map (fun a => Z.of_N (N_of_ascii a)) (list_ascii_of_string s).

Definition js (s : string) : jsstring := utf16_of_utf8 (bytes_of s).

(** The double quote, which the literals below never contain. *)
Definition dq : jsstring := [34].
Definition nl : jsstring := [10].

Definition jsstring_eqb (a b : jsstring) : bool := bool_decide (a = b).

(** A non-empty string is truthy. *)
Definition truthy (s : jsstring) : bool :=
  match s with [] => false | _ => true end.

(** [WhiteSpace] and [LineTerminator] of ECMAScript, as stripped by
    [String.prototype.trim]. *)
Definition is_js_space (c : Z) : bool :=
  (9 <=? c) && (c <=? 13) || (c =? 32) || (c =? 160) || (c =? 5760)
  || (8192 <=? c) && (c <=? 8202) || (c =? 8232) || (c =? 8233)
  || (c =? 8239) || (c =? 8287) || (c =? 12288) || (c =? 65279).

Fixpoint trimStart (s : jsstring) : jsstring :=
  match s with
  | c :: r => if is_js_space c then trimStart r else s
  | [] => []
  end.

Definition trimEnd (s : jsstring) : jsstring := rev (trimStart (rev s)).

Definition trim (s : jsstring) : jsstring := trimEnd (trimStart s).

(** [s.startsWith(p)] *)
Fixpoint startsWith (p s : jsstring) : bool :=
  match p, s with
  | [], _ => true
  | a :: p', c :: s' => (a =? c) && startsWith p' s'
  | _ :: _, [] => false
  end.

(** [s.indexOf(p)] where [pos] code units have been skipped already:
    [None] is JavaScript's -1. *)
Fixpoint indexOf_at (p s : jsstring) (pos : nat) : option nat :=
  if startsWith p s then Some pos
  else match s with
       | [] => None
       | _ :: s' => indexOf_at p s' (S pos)
       end.

(** [t.includes(s)] *)
Definition includes (s t : jsstring) : bool :=
  match indexOf_at s t 0 with
  | Some _ => true
  | None => false
  end.

(** [s.indexOf(p, from)] *)
Definition indexOf (s p : jsstring) (from : nat) : option nat :=
  indexOf_at p (drop (from `min` length s) s) (from `min` length s).

(** [s.slice(i, j)] for [0 <= i] and [0 <= j]. *)
Definition slice (s : jsstring) (i j : nat) : jsstring :=
  take (j - i) (drop i s).

(** [s.split(sep)] for a separator of one code unit. *)
Fixpoint split (sep : Z) (s : jsstring) : list jsstring :=
  match s with
  | [] => [[]]
  | c :: r =>
    if c =? sep then [] :: split sep r
    else match split sep r with
         | w :: ws => (c :: w) :: ws
         | [] => [[c]]
         end
  end.

(** [s] occurs in [t] as a contiguous run of code units. *)
Definition occurs_in (s t : jsstring) : Prop :=
  exists pre post, t = pre ++ s ++ post.

(** ** Regular expressions

    A backtracking matcher in continuation-passing style for the
    fragment the source uses: literal characters, sequence, a greedy
    optional group and a greedy [+] over a character class. *)

Inductive class_item : Type :=
  | CWord                 (* \w *)
  | CDigit                (* \d *)
  | CChar (c : Z).

Inductive regex : Type :=
  | RChar (c : Z)
  | RSeq (r1 r2 : regex)
  | ROpt (r : regex)
  | RPlus (cl : list class_item).

(** [Canonicalize] of a pattern without the [u] flag: upper case of a
    single code unit.  Code units from 128 on never canonicalize below
    128, and every character of the patterns here is ASCII, so only the
    ASCII letters matter. *)
Definition canonicalize (c : Z) : Z :=
  if (97 <=? c) && (c <=? 122) then c - 32 else c.

Definition is_digit (c : Z) : bool := (48 <=? c) && (c <=? 57).

Definition is_word (c : Z) : bool :=
  (65 <=? c) && (c <=? 90) || (97 <=? c) && (c <=? 122)
  || is_digit c || (c =? 95).

Definition char_matches (ic : bool) (a c : Z) : bool :=
  if ic then canonicalize a =? canonicalize c else a =? c.

Definition item_matches (ic : bool) (it : class_item) (c : Z) : bool :=
  match it with
  | CWord => is_word c
  | CDigit => is_digit c
  | CChar a => char_matches ic a c
  end.

Definition class_matches (ic : bool) (cl : list class_item) (c : Z) : bool :=
  existsb (fun it => item_matches ic it c) cl.

Fixpoint plus_loop (ic : bool) (cl : list class_item) (s : jsstring)
    (k : jsstring -> bool) : bool :=
  match s with
  | [] => false
  | c :: s' => class_matches ic cl c && (plus_loop ic cl s' k || k s')
  end.

Fixpoint rmatch (ic : bool) (r : regex) (s : jsstring)
    (k : jsstring -> bool) : bool :=
  match r with
  | RChar a =>
    match s with
    | c :: s' => char_matches ic a c && k s'
    | [] => false
    end
  | RSeq r1 r2 => rmatch ic r1 s (fun s' => rmatch ic r2 s' k)
  | ROpt r1 => rmatch ic r1 s k || k s
  | RPlus cl => plus_loop ic cl s k
  end.

Definition at_end (s : jsstring) : bool :=
  match s with [] => true | _ => false end.

(** [/^r$/.test(s)], with flag [i] when [ic] holds. *)
Definition regex_test (ic : bool) (r : regex) (s : jsstring) : bool :=
  rmatch ic r s at_end.

Fixpoint RLit (s : jsstring) (r : regex) : regex :=
  match s with
  | [] => r
  | c :: s' => RSeq (RChar c) (RLit s' r)
  end.

Definition chars (s : string) : list class_item := List.map CChar (js s).

(** [/^\d+$/] *)
Definition number_re : regex := RPlus [CDigit].

(** [/^(https?:\/\/)[\w.-]+(?:\/[\w\-._~:/?#[\]@!$&'()*+,;=.]+)?$/i] *)
Definition url_re : regex :=
  RLit (js "http") (RSeq (ROpt (RChar 115)) (RLit (js "://")
    (RSeq (RPlus (CWord :: chars ".-"))
          (ROpt (RSeq (RChar 47)
                      (RPlus (CWord :: chars "-._~:/?#[]@!$&'()*+,;=."))))))).

Definition isNumber (text : jsstring) : bool := regex_test false number_re text.
Definition isUrl (text : jsstring) : bool := regex_test true url_re text.

(** ** Numbers

    [parseInt] yields an IEEE 754 double.  The doubles it can yield are
    integers, NaN and the infinities; an integer double is modelled by
    its value in [Z] (the two zeros are not told apart: [String] and
    [<= 0] treat them alike). *)

Inductive jsnum : Type :=
  | NaN
  | Num (z : Z)
  | PosInf
  | NegInf.

(** Round a natural number to 53 significant bits, ties to even. *)
Definition round53 (n : Z) : Z :=
  if n <? 2 ^ 53 then n
  else
    let e := Z.log2 n - 52 in
    let q := n / 2 ^ e in
    let r := n mod 2 ^ e in
    let half := 2 ^ (e - 1) in
    let q' := if r <? half then q
              else if half <? r then q + 1
              else if Z.even q then q else q + 1 in
    q' * 2 ^ e.

(** The double of a natural number: beyond the largest double,
    rounding gives infinity. *)
Definition number_of_nat (neg : bool) (n : Z) : jsnum :=
  let r := round53 n in
  if 2 ^ 1024 <=? r then (if neg then NegInf else PosInf)
  else Num (if neg then - r else r).

Definition digits_value (ds : jsstring) : Z :=
  fold_left (fun acc c => acc * 10 + (c - 48)) ds 0.

Fixpoint takeWhile_digit (s : jsstring) : jsstring :=
  match s with
  | c :: r => if is_digit c then c :: takeWhile_digit r else []
  | [] => []
  end.

(** [parseInt(s, 10)] *)
Definition parseInt10 (s : jsstring) : jsnum :=
  let s1 := trimStart s in
  let '(neg, s2) := match s1 with
                    | 45 :: r => (true, r)
                    | 43 :: r => (false, r)
                    | _ => (false, s1)
                    end in
  match takeWhile_digit s2 with
  | [] => NaN
  | ds => number_of_nat neg (digits_value ds)
  end.

Fixpoint uint_digits (u : Decimal.uint) : jsstring :=
  match u with
  | Decimal.Nil => []
  | Decimal.D0 r => 48 :: uint_digits r
  | Decimal.D1 r => 49 :: uint_digits r
  | Decimal.D2 r => 50 :: uint_digits r
  | Decimal.D3 r => 51 :: uint_digits r
  | Decimal.D4 r => 52 :: uint_digits r
  | Decimal.D5 r => 53 :: uint_digits r
  | Decimal.D6 r => 54 :: uint_digits r
  | Decimal.D7 r => 55 :: uint_digits r
  | Decimal.D8 r => 56 :: uint_digits r
  | Decimal.D9 r => 57 :: uint_digits r
  end.

(** The decimal numeral of a natural number, without leading zeros. *)
Definition decimal (n : Z) : jsstring := uint_digits (N.to_uint (Z.to_N n)).

(** The shortest decimal that rounds to the double [x]: the largest
    power of ten [10^p] with a multiple that rounds to [x]; of two such
    multiples the nearer one, on a tie the even one. *)
Fixpoint shortest_at (x : Z) (p : nat) : Z :=
  let t := 10 ^ Z.of_nat p in
  let lo := x / t * t in
  let hi := lo + t in
  let ok_lo := (0 <? lo) && (round53 lo =? x) in
  let ok_hi := round53 hi =? x in
  if ok_lo && ok_hi then
    if x - lo <? hi - x then lo
    else if hi - x <? x - lo then hi
    else if Z.even (x / t) then lo else hi
  else if ok_lo then lo
  else if ok_hi then hi
  else match p with
       | O => x
       | S p' => shortest_at x p'
       end.

Fixpoint strip_zeros (s : jsstring) : jsstring :=
  match s with
  | 48 :: r => strip_zeros r
  | _ => s
  end.

(** [Number::toString] of a positive integer double. *)
Definition nat_toString (x : Z) : jsstring :=
  if x <? 2 ^ 53 then decimal x
  else
    let v := decimal (shortest_at x (length (decimal x))) in
    let n := Z.of_nat (length v) in
    if n <=? 21 then v
    else
      match rev (strip_zeros (rev v)) with
      | [] => v
      | [d] => d :: js "e+" ++ decimal (n - 1)
      | d :: ds => d :: js "." ++ ds ++ js "e+" ++ decimal (n - 1)
      end.

(** [String(x)] of a number. *)
Definition number_toString (x : jsnum) : jsstring :=
  match x with
  | NaN => js "NaN"
  | PosInf => js "Infinity"
  | NegInf => js "-Infinity"
  | Num z => if z <? 0 then js "-" ++ nat_toString (- z) else nat_toString z
  end.

(** [x <= 0] *)
Definition le_zero (x : jsnum) : bool :=
  match x with
  | NaN => false
  | Num z => z <=? 0
  | PosInf => false
  | NegInf => true
  end.

(** A value of [Math.random()]: the double [mant / 2^expo]. *)
Record rand : Type := { mant : Z; expo : Z }.

(** The doubles in [0, 1). *)
Definition unit_double (r : rand) : bool :=
  (0 <=? mant r) && (mant r <? 2 ^ 53)
  && (0 <=? expo r) && (expo r <=? 1074) && (mant r <? 2 ^ expo r).

(** [Math.floor(r * n)] for a natural number [n] below [2^53]: the
    product is rounded to a double, then floored. *)
Definition floor_mul (r : rand) (n : Z) : Z :=
  round53 (mant r * n) / 2 ^ expo r.

(** [s.charAt(i)]: empty out of range. *)
Definition charAt (s : jsstring) (i : Z) : jsstring :=
  if i <? 0 then []
  else match s !! Z.to_nat i with
       | Some c => [c]
       | None => []
       end.

(** ** Sponsor links *)

(** [Array.from(new Set(l))]: the first occurrence of each element, in
    order; [seen] holds the elements met so far. *)
Fixpoint Set_from (l seen : list jsstring) : list jsstring :=
  match l with
  | [] => []
  | x :: r =>
    if existsb (jsstring_eqb x) seen then Set_from r seen
    else x :: Set_from r (x :: seen)
  end.

Definition tme_prefix : jsstring := js "https://t.me/".

(** The [while (idx !== -1)] loop of [normalizeSponsorLinks]; [None]
    when the fuel runs out. *)
Fixpoint collect_links (fuel : nat) (raw : jsstring) (idx : nat)
    (matches : list jsstring) : option (list jsstring) :=
  match fuel with
  | O => None
  | S fuel' =>
    let end0 := indexOf raw (js ",") idx in
    let nextPrefix := indexOf raw tme_prefix (idx + length tme_prefix) in
    let end1 :=
      match nextPrefix, end0 with
      | Some np, None => Some np
      | Some np, Some e => if (np <? e)%nat then Some np else Some e
      | None, _ => end0
      end in
    let end2 := default (length raw) end1 in
    let item := trim (slice raw idx end2) in
    let matches' := if truthy item then matches ++ [item] else matches in
    match indexOf raw tme_prefix end2 with
    | None => Some matches'
    | Some idx' => collect_links fuel' raw idx' matches'
    end
  end.

Definition normalizeSponsorLinks (raw : jsstring) : option (list jsstring) :=
  if negb (truthy raw) then Some []
  else
    let found :=
      match indexOf raw tme_prefix 0 with
      | None => Some []
      | Some idx => collect_links (length raw) raw idx []
      end in
    match found with
    | None => None
    | Some [] => Some (List.filter truthy (List.map trim (split 44 raw)))
    | Some matches => Some (Set_from matches [])
    end.

(** ** The database *)

Inductive request_type : Type := stars | nft.

Record user : Type := {
  username : option jsstring;
  first_name : option jsstring;
  last_name : option jsstring
}.

(** A row of [requests]; its key [id] is the key of the map. *)
Record request : Type := {
  user_id : Z;
  req_type : request_type;
  request_value : jsstring;
  generated_link : jsstring
}.

(** The three tables, each keyed by its primary key.  The columns
    [created_at] and [updated_at] are left out. *)
Record database : Type := {
  users : gmap Z user;
  requests : gmap jsstring request;
  user_states : gmap Z jsstring
}.

Definition set_users (f : gmap Z user -> gmap Z user) (db : database) :=
  {| users := f (users db); requests := requests db;
     user_states := user_states db |}.

Definition set_requests
    (f : gmap jsstring request -> gmap jsstring request) (db : database) :=
  {| users := users db; requests := f (requests db);
     user_states := user_states db |}.

Definition set_user_states
    (f : gmap Z jsstring -> gmap Z jsstring) (db : database) :=
  {| users := users db; requests := requests db;
     user_states := f (user_states db) |}.

(** [REFERENCES users(telegram_id)] *)
Definition references_user (db : database) (uid : Z) : bool :=
  bool_decide (is_Some (users db !! uid)).

(** The statements of the source.  A statement either fails (a
    constraint is violated or a parameter is rejected) or gives a
    result and a database. *)
Definition sql_upsert_user (uid : Z) (u : user) (db : database)
    : option (unit * database) :=
  Some (tt, set_users (insert uid u) db).

Definition sql_upsert_state (uid : Z) (state : jsstring) (db : database)
    : option (unit * database) :=
  if references_user db uid
  then Some (tt, set_user_states (insert uid state) db)
  else None.

Definition sql_select_state (uid : Z) (db : database)
    : option (option jsstring * database) :=
  Some (user_states db !! uid, db).

Definition sql_delete_state (uid : Z) (db : database)
    : option (unit * database) :=
  Some (tt, set_user_states (delete uid) db).

Definition sql_upsert_request (id : jsstring) (r : request) (db : database)
    : option (unit * database) :=
  if references_user db (user_id r)
  then Some (tt, set_requests (insert id r) db)
  else None.

(** A text that holds the code unit U+0000. *)
Definition has_nul (s : jsstring) : bool := existsb (Z.eqb 0) s.

(** The lookup of the route.  Its parameter is the path segment of the
    request, any text at all: PostgreSQL rejects a text parameter that
    holds U+0000, and the statement fails. *)
Definition sql_select_request (id : jsstring) (db : database)
    : option (option request * database) :=
  if has_nul id then None else Some (requests db !! id, db).

(** ** The world and the monad of handlers *)

Inductive button : Type :=
  | UrlButton (text url : jsstring)
  | CallbackButton (text data : jsstring).

Inductive statement : Type :=
  | UpsertUser | UpsertState | SelectState | DeleteState
  | UpsertRequest | SelectRequest.

(** What a handler does to the outside, in order. *)
Inductive event : Type :=
  | Reply (text : jsstring) (keyboard : list (list button))
  | AnswerCbQuery (text : option jsstring)
  | Query (s : statement)
  | ConsoleError (label : jsstring).

(** [pool] is [None] when [DATABASE_URL] is not set.  [faults] is
    consumed one flag per query: [true] makes the driver throw.
    [random_source] is the sequence of values of [Math.random()] and
    [random_pos] the number of values drawn. *)
Record world : Type := {
  env_BASE_URL : option jsstring;
  SPONSOR_LINKS : list jsstring;
  pool : option database;
  faults : list bool;
  random_source : nat -> rand;
  random_pos : nat;
  trace : list event
}.

Definition with_pool (p : option database) (w : world) : world :=
  {| env_BASE_URL := env_BASE_URL w; SPONSOR_LINKS := SPONSOR_LINKS w;
     pool := p; faults := faults w; random_source := random_source w;
     random_pos := random_pos w; trace := trace w |}.

Definition with_faults (fs : list bool) (w : world) : world :=
  {| env_BASE_URL := env_BASE_URL w; SPONSOR_LINKS := SPONSOR_LINKS w;
     pool := pool w; faults := fs; random_source := random_source w;
     random_pos := random_pos w; trace := trace w |}.

Definition with_random_pos (n : nat) (w : world) : world :=
  {| env_BASE_URL := env_BASE_URL w; SPONSOR_LINKS := SPONSOR_LINKS w;
     pool := pool w; faults := faults w; random_source := random_source w;
     random_pos := n; trace := trace w |}.

Definition with_trace (t : list event) (w : world) : world :=
  {| env_BASE_URL := env_BASE_URL w; SPONSOR_LINKS := SPONSOR_LINKS w;
     pool := pool w; faults := faults w; random_source := random_source w;
     random_pos := random_pos w; trace := t |}.

(** [process.env.BASE_URL || 'https://borkstudio'] *)
Definition BASE_URL (w : world) : jsstring :=
  match env_BASE_URL w with
  | Some s => if truthy s then s else js "https://borkstudio"
  | None => js "https://borkstudio"
  end.

Definition BOT_OWNER_ID : Z := 6910097562.

Inductive outcome (A : Type) : Type :=
  | Returned (a : A)
  | Thrown.
Arguments Returned {A} a.
Arguments Thrown {A}.

Definition M (A : Type) : Type := world -> outcome A * world.

Definition ret {A} (a : A) : M A := fun w => (Returned a, w).

Definition bind {A B} (c : M A) (k : A -> M B) : M B :=
  fun w => match c w with
           | (Returned a, w') => k a w'
           | (Thrown, w') => (Thrown, w')
           end.

Notation "'let*' x ':=' c 'in' k" := (bind c (fun x => k))
  (at level 10, x name, c at level 100, k at level 200).
Notation "c ';;' k" := (bind c (fun _ => k))
  (at level 100, k at level 200, right associativity).

(** [try { body } catch { handler }] *)
Definition try_catch {A} (body handler : M A) : M A :=
  fun w => match body w with
           | (Returned a, w') => (Returned a, w')
           | (Thrown, w') => handler w'
           end.

Definition emit (e : event) : M unit :=
  fun w => (Returned tt, with_trace (trace w ++ [e]) w).

Definition read {A} (f : world -> A) : M A := fun w => (Returned (f w), w).

(** [await pool.query(...)] *)
Definition pool_query {A} (s : statement)
    (run : database -> option (A * database)) : M A :=
  fun w =>
    match pool w with
    | None => (Thrown, w)
    | Some db =>
      let w1 := with_trace (trace w ++ [Query s]) w in
      let w2 := with_faults (tail (faults w)) w1 in
      match faults w with
      | true :: _ => (Thrown, w2)
      | _ => match run db with
             | Some (a, db') => (Returned a, with_pool (Some db') w2)
             | None => (Thrown, w2)
             end
      end
    end.

(** [Math.random()] *)
Definition Math_random : M rand :=
  fun w => (Returned (random_source w (random_pos w)),
            with_random_pos (S (random_pos w)) w).

Definition reply (text : jsstring) : M unit := emit (Reply text []).
Definition console_error (label : string) : M unit :=
  emit (ConsoleError (js label)).

(** ** Persistence helpers of the source *)

Record telegram_user : Type := {
  tg_id : Z;
  tg_username : option jsstring;
  tg_first_name : option jsstring;
  tg_last_name : option jsstring
}.

(** [x || null] for an optional string *)
Definition or_null (x : option jsstring) : option jsstring :=
  match x with
  | Some s => if truthy s then Some s else None
  | None => None
  end.

Definition has_pool : M bool :=
  read (fun w => match pool w with Some _ => true | None => false end).

Definition upsertUser (u : telegram_user) : M unit :=
  let* p := has_pool in
  if negb p then ret tt
  else pool_query UpsertUser
         (sql_upsert_user (tg_id u)
            {| username := or_null (tg_username u);
               first_name := or_null (tg_first_name u);
               last_name := or_null (tg_last_name u) |}).

Definition setUserState (userId : Z) (state : jsstring) : M unit :=
  let* p := has_pool in
  if negb p then ret tt
  else pool_query UpsertState (sql_upsert_state userId state).

Definition getUserState (userId : Z) : M (option jsstring) :=
  let* p := has_pool in
  if negb p then ret None
  else let* row := pool_query SelectState (sql_select_state userId) in
       ret (or_null row).

Definition clearUserState (userId : Z) : M unit :=
  let* p := has_pool in
  if negb p then ret tt
  else pool_query DeleteState (sql_delete_state userId).

(** The value of a request before it is stored: a number or a string. *)
Inductive jsvalue : Type :=
  | VNum (n : jsnum)
  | VStr (s : jsstring).

(** [String(value)] *)
Definition String_of (v : jsvalue) : jsstring :=
  match v with
  | VNum n => number_toString n
  | VStr s => s
  end.

Definition saveRequest (token : jsstring) (userId : Z) (type : request_type)
    (value : jsvalue) (link : jsstring) : M unit :=
  let* p := has_pool in
  if negb p then ret tt
  else pool_query UpsertRequest
         (sql_upsert_request token
            {| user_id := userId; req_type := type;
               request_value := String_of value; generated_link := link |}).

(** ** The token generator *)

Definition alphabet : jsstring :=
  js "ABCDEFGHIJKLMNOPQRSTUVWXYZabcdefghijklmnopqrstuvwxyz0123456789".

(** The body of the [for] loop, run [n] more times. *)
Fixpoint token_loop (n : nat) (out : jsstring) : M jsstring :=
  match n with
  | O => ret out
  | S n' =>
    let* r := Math_random in
    token_loop n'
      (out ++ charAt alphabet (floor_mul r (Z.of_nat (length alphabet))))
  end.

Definition generateRandomToken (len : nat) : M jsstring := token_loop len [].

(** ** The link page *)

Definition displayValue (row : option request) : jsstring :=
  match row with
  | Some r =>
    match req_type r with
    | stars => request_value r ++ js " звёзд"
    | nft => request_value r
    end
  | None => []
  end.

Definition hex_digit (d : Z) : Z := if d <? 10 then 48 + d else 87 + d.

(** A four digit escape of one code unit. *)
Definition unicode_escape (c : Z) : jsstring :=
  [92; 117; hex_digit (c / 4096); hex_digit (c / 256 mod 16);
   hex_digit (c / 16 mod 16); hex_digit (c mod 16)].

Definition is_high_surrogate (c : Z) : bool := (55296 <=? c) && (c <=? 56319).
Definition is_low_surrogate (c : Z) : bool := (56320 <=? c) && (c <=? 57343).

(** [QuoteJSONString] without the enclosing quotes. *)
Fixpoint quote_json (s : jsstring) : jsstring :=
  match s with
  | [] => []
  | c :: r =>
    if c =? 8 then [92; 98] ++ quote_json r
    else if c =? 9 then [92; 116] ++ quote_json r
    else if c =? 10 then [92; 110] ++ quote_json r
    else if c =? 12 then [92; 102] ++ quote_json r
    else if c =? 13 then [92; 114] ++ quote_json r
    else if c =? 34 then [92; 34] ++ quote_json r
    else if c =? 92 then [92; 92] ++ quote_json r
    else if c <? 32 then unicode_escape c ++ quote_json r
    else if is_high_surrogate c then
      match r with
      | d :: r' =>
        if is_low_surrogate d then c :: d :: quote_json r'
        else unicode_escape c ++ quote_json r
      | [] => unicode_escape c
      end
    else if is_low_surrogate c then unicode_escape c ++ quote_json r
    else c :: quote_json r
  end.

(** [JSON.stringify(s)] of a string *)
Definition JSON_stringify (s : jsstring) : jsstring :=
  dq ++ quote_json s ++ dq.

(** The template up to the opening of [<title>]. *)
Definition page_head : jsstring :=
  js "<!doctype html>" ++ nl
  ++ js "<html>" ++ nl
  ++ js "<head>" ++ nl
  ++ js "  <meta charset=" ++ dq ++ js "utf-8" ++ dq ++ js " />" ++ nl
  ++ js "  <meta name=" ++ dq ++ js "viewport" ++ dq ++ js " content=" ++ dq
  ++ js "width=device-width, initial-scale=1" ++ dq ++ js " />" ++ nl
  ++ js "  <title>".

(** The template from [</title>] to the opening of the heading. *)
Definition page_after_title : jsstring :=
  js "</title>" ++ nl
  ++ js "  <style>" ++ nl
  ++ js "    :root { --bg: #0b1020; --card: #0f1724; --accent: "
  ++ js "#00d1ff; --text: #ffffff; }" ++ nl
  ++ js "    body { margin:0; font-family: Inter, system-ui, "
  ++ js "-apple-system, 'Segoe UI', Roboto, 'Helvetica Neue', Arial; "
  ++ js "background: linear-gradient(135deg,#071226 0%, #081224 "
  ++ js "100%); color: var(--text); display:flex; "
  ++ js "align-items:center; justify-content:center; height:100vh; }" ++ nl
  ++ js "    .card { background: var(--card); padding:28px; "
  ++ js "border-radius:14px; box-shadow: 0 10px 30px "
  ++ js "rgba(2,6,23,0.6); max-width:520px; width:90%; "
  ++ js "text-align:center; }" ++ nl
  ++ js "    .title { font-size:22px; font-weight:800; "
  ++ js "color:var(--accent); margin-bottom:8px; }" ++ nl
  ++ js "    .desc { font-size:16px; color:#e6f7ff; "
  ++ js "margin-bottom:18px; }" ++ nl
  ++ js "    .value { font-size:20px; font-weight:700; color:#fff; "
  ++ js "background: rgba(255,255,255,0.03); padding:10px 14px; "
  ++ js "border-radius:8px; margin-bottom:18px; }" ++ nl
  ++ js "    .btn { display:inline-block; padding:12px 20px; "
  ++ js "background:var(--accent); color:#022; font-weight:800; "
  ++ js "border-radius:10px; text-decoration:none; cursor:pointer; }" ++ nl
  ++ js "    .hint { margin-top:12px; color:#9fbfdc; font-size:13px; "
  ++ js "}" ++ nl
  ++ js "  </style>" ++ nl
  ++ js "</head>" ++ nl
  ++ js "<body>" ++ nl
  ++ js "  <div class=" ++ dq ++ js "card" ++ dq ++ js ">" ++ nl
  ++ js "    <div class=" ++ dq ++ js "title" ++ dq ++ js ">".

(** The template from the heading to the opening of the description. *)
Definition page_after_heading : jsstring :=
  js "</div>" ++ nl
  ++ js "    <div class=" ++ dq ++ js "desc" ++ dq ++ js ">".

(** The template from the description to the value slot. *)
Definition page_after_desc : jsstring :=
  js "</div>" ++ nl
  ++ js "    ".

(** The template from the value slot to [const textToCopy = ]. *)
Definition page_after_value : jsstring :=
  nl
  ++ js "    <button class=" ++ dq ++ js "btn" ++ dq ++ js " id=" ++ dq
  ++ js "copyBtn" ++ dq ++ js ">Скопировать ссылку</button>" ++ nl
  ++ js "    <div class=" ++ dq ++ js "hint" ++ dq ++ js " id=" ++ dq
  ++ js "hint" ++ dq ++ js ">Ожидание...</div>" ++ nl
  ++ js "  </div>" ++ nl
  ++ js "  <script>" ++ nl
  ++ js "    const copyBtn = document.getElementById('copyBtn');" ++ nl
  ++ js "    const hint = document.getElementById('hint');" ++ nl
  ++ js "    const textToCopy = ".

(** The template the rest of the script and the page. *)
Definition page_tail : jsstring :=
  js ";" ++ nl
  ++ nl
  ++ js "    async function tryCopy() {" ++ nl
  ++ js "      try {" ++ nl
  ++ js "        if (navigator.clipboard && "
  ++ js "navigator.clipboard.writeText) {" ++ nl
  ++ js "          await navigator.clipboard.writeText(textToCopy);" ++ nl
  ++ js "        } else {" ++ nl
  ++ js "          const t = document.createElement('textarea');" ++ nl
  ++ js "          t.value = textToCopy; "
  ++ js "document.body.appendChild(t); t.select(); "
  ++ js "document.execCommand('copy'); t.remove();" ++ nl
  ++ js "        }" ++ nl
  ++ js "        hint.textContent = 'Ссылка скопирована в буфер "
  ++ js "обмена!';" ++ nl
  ++ js "      } catch (e) {" ++ nl
  ++ js "        hint.textContent = 'Не удалось скопировать "
  ++ js "автоматически. Нажмите кнопку.';" ++ nl
  ++ js "      }" ++ nl
  ++ js "    }" ++ nl
  ++ nl
  ++ js "    // Try to copy on load (may be blocked by browser), "
  ++ js "then rely on button" ++ nl
  ++ js "    window.addEventListener('load', () => {" ++ nl
  ++ js "      tryCopy();" ++ nl
  ++ js "    });" ++ nl
  ++ nl
  ++ js "    copyBtn.addEventListener('click', async () => {" ++ nl
  ++ js "      await tryCopy();" ++ nl
  ++ js "    });" ++ nl
  ++ js "  </script>" ++ nl
  ++ js "</body>" ++ nl
  ++ js "</html>".

Definition page_title (notFound : bool) : jsstring :=
  if notFound then js "Ссылка не найдена" else js "Скопировать ссылку".

Definition page_description (fullUrl : jsstring) (notFound : bool) : jsstring :=
  if notFound then js "Эта ссылка не найдена или истекла."
  else js "Нажмите кнопку, чтобы скопировать: " ++ fullUrl.

(** The conditional value block of the template. *)
Definition value_block (display : jsstring) : jsstring :=
  if truthy display
  then js "<div class=" ++ dq ++ js "value" ++ dq ++ js ">" ++ display
       ++ js "</div>"
  else [].

Definition buildCopyHtml (fullUrl : jsstring) (row : option request)
    (notFound : bool) : jsstring :=
  page_head ++ page_title notFound
  ++ page_after_title ++ page_title notFound
  ++ page_after_heading ++ page_description fullUrl notFound
  ++ page_after_desc ++ value_block (displayValue row)
  ++ page_after_value ++ JSON_stringify fullUrl
  ++ page_tail.

Record response : Type := { status : Z; body : jsstring }.

(** [app.get('/c/:token', ...)] *)
Definition copy_page (token : jsstring) : M response :=
  try_catch
    (let* p := has_pool in
     let* base := read BASE_URL in
     let fullUrl := base ++ js "/c/" ++ token in
     if negb p then
       ret {| status := 200; body := buildCopyHtml fullUrl None false |}
     else
       let* row := pool_query SelectRequest (sql_select_request token) in
       match row with
       | None =>
         ret {| status := 404; body := buildCopyHtml fullUrl None true |}
       | Some r =>
         ret {| status := 200; body := buildCopyHtml fullUrl (Some r) false |}
       end)
    (console_error "Error in /c/:token";;
     ret {| status := 500; body := js "Server error" |}).

(** ** The bot *)

Fixpoint rows_of_two {A} (l : list A) : list (list A) :=
  match l with
  | a :: b :: r => [a; b] :: rows_of_two r
  | [a] => [[a]]
  | [] => []
  end.

Definition buildSponsorKeyboard (links : list jsstring) : list (list button) :=
  rows_of_two
    (imap (fun i l => UrlButton (js "Спонсор " ++ decimal (Z.of_nat i + 1)) l)
          links).

(** [bot.start] *)
Definition on_start (from : telegram_user) : M unit :=
  try_catch
    (upsertUser from;;
     if tg_id from =? BOT_OWNER_ID then
       emit (Reply
         (js "Привет! Я бот, который помогает забирать NFT-подарок или звёзды у другого пользователя по специальной ссылке.")
         [[CallbackButton (js "Получить ссылку") (js "get_link")]])
     else
       let text := js "Пожалуйста, подпишитесь на всех спонсоров и вернитесь." in
       let* links := read SPONSOR_LINKS in
       match links with
       | [] => reply text
       | _ => emit (Reply text (buildSponsorKeyboard links))
       end)
    (console_error "Error in /start:").

Definition awaiting_request : jsstring := js "awaiting_request".

Definition unavailable_msg : jsstring := js "Действие недоступно.".
Definition prompt_msg : jsstring :=
  js "Отправьте количество звёзд (числом) или ссылку на NFT, которую хотите забрать.".

(** [bot.action('get_link')] *)
Definition on_get_link (from_id : Z) : M unit :=
  try_catch
    (if negb (from_id =? BOT_OWNER_ID) then
       emit (AnswerCbQuery (Some unavailable_msg))
     else
       emit (AnswerCbQuery None);;
       setUserState from_id awaiting_request;;
       reply prompt_msg)
    (console_error "Error in get_link action:").

Definition invalid_msg : jsstring :=
  js "Пожалуйста, отправьте положительное число (звёзды) или корректную ссылку (NFT).".
Definition not_positive_msg : jsstring :=
  js "Количество звёзд должно быть больше 0. Попробуйте снова.".
Definition done_msg (link : jsstring) : jsstring :=
  js "Готово! Ваша уникальная ссылка: " ++ link.
Definition error_msg : jsstring := js "Произошла ошибка. Попробуйте ещё раз.".

(** [value <= 0], reached for numbers only *)
Definition value_le_zero (v : jsvalue) : bool :=
  match v with
  | VNum n => le_zero n
  | VStr _ => false
  end.

(** [bot.on('text')] *)
Definition on_text (from_id : Z) (message_text : jsstring) : M unit :=
  try_catch
    (let* state := getUserState from_id in
     if negb (from_id =? BOT_OWNER_ID)
        || negb (bool_decide (state = Some awaiting_request))
     then ret tt
     else
       let text := trim message_text in
       let isNumber := isNumber text in
       let isUrl := isUrl text in
       if negb isNumber && negb isUrl then reply invalid_msg
       else
         let type := if isNumber then stars else nft in
         let value := if isNumber then VNum (parseInt10 text) else VStr text in
         if isNumber && value_le_zero value then reply not_positive_msg
         else
           let* token := generateRandomToken 14 in
           let* base := read BASE_URL in
           let link := base ++ js "/c/" ++ token in
           saveRequest token from_id type value link;;
           clearUserState from_id;;
           reply (done_msg link))
    (console_error "Error handling text:";;
     reply error_msg).

(** ** Derived notions used by the statements *)

(** The three classes of a trimmed text: the branches of the handler
    between the tests of [isNumber] and [isUrl] and the choice of
    [type]. *)
Inductive classification : Type := Stars | Nft | Neither.

Definition classify (text : jsstring) : classification :=
  if negb (isNumber text) && negb (isUrl text) then Neither
  else if isNumber text then Stars else Nft.

(** Upper case letters, lower case letters and decimal digits. *)
Definition is_alnum (c : Z) : bool :=
  (65 <=? c) && (c <=? 90) || (97 <=? c) && (c <=? 122)
  || (48 <=? c) && (c <=? 57).

(** The characters appended by [n] rounds of the token loop that start
    at position [pos] of the random sequence. *)
Fixpoint token_chars (src : nat -> rand) (pos n : nat) : jsstring :=
  match n with
  | O => []
  | S n' =>
    charAt alphabet (floor_mul (src pos) (Z.of_nat (length alphabet)))
    ++ token_chars src (S pos) n'
  end.

(** The world after a query has been issued: the query is in the trace
    and its fault flag is consumed. *)
Definition tick (s : statement) (w : world) : world :=
  with_faults (tail (faults w)) (with_trace (trace w ++ [Query s]) w).

(** The next [n] values of [Math.random()] are doubles in [0, 1). *)
Definition randoms_ok (n : nat) (w : world) : bool :=
  forallb (fun i => unit_double (random_source w (random_pos w + i)))
          (seq 0 n).

(** The next query does not fail in the driver. *)
Definition next_ok (w : world) : bool :=
  match faults w with
  | true :: _ => false
  | _ => true
  end.

(** The first [n] queries from now on do not fail in the driver. *)
Definition calm (n : nat) (w : world) : bool :=
  forallb negb (take n (faults w)).

(** Pieces of the page named in the statements. *)
Definition desc_open : jsstring := js "<div class=" ++ dq ++ js "desc" ++ dq ++ js ">".
Definition value_open : jsstring := js "<div class=" ++ dq ++ js "value" ++ dq ++ js ">".
Definition div_close : jsstring := js "</div>".
Definition copy_hint : jsstring := js "Нажмите кнопку, чтобы скопировать: ".

(** The unit label that follows a count of stars. *)
Definition unit_label (t : request_type) : jsstring :=
  match t with
  | stars => js " звёзд"
  | nft => []
  end.

(** The token that the next call of [generateRandomToken(14)] returns. *)
Definition next_token (w : world) : jsstring :=
  token_chars (random_source w) (random_pos w) 14.

(** The row that the handler stores for an accepted trimmed text [t]. *)
Definition accepted_request (w : world) (t : jsstring) : request :=
  {| user_id := BOT_OWNER_ID;
     req_type := if isNumber t then stars else nft;
     request_value :=
       String_of (if isNumber t then VNum (parseInt10 t) else VStr t);
     generated_link := BASE_URL w ++ js "/c/" ++ next_token w |}.

(** The world after the handler has accepted the trimmed text [t]: the
    request is stored under the token, the owner's state is deleted,
    three queries and the reply are in the trace. *)
Definition accepted_world (w : world) (db : database) (t : jsstring)
    : world :=
  {| env_BASE_URL := env_BASE_URL w;
     SPONSOR_LINKS := SPONSOR_LINKS w;
     pool := Some (set_user_states (delete BOT_OWNER_ID)
                     (set_requests
                        (insert (next_token w) (accepted_request w t)) db));
     faults := drop 3 (faults w);
     random_source := random_source w;
     random_pos := 14 + random_pos w;
     trace := trace w ++ [Query SelectState; Query UpsertRequest;
                          Query DeleteState;
                          Reply (done_msg (BASE_URL w ++ js "/c/"
                                           ++ next_token w)) []] |}.

(** ** Sample worlds *)

(** A database in which the owner is registered and has triggered the
    flow. *)
Definition db_awaiting : database :=
  {| users := {[ BOT_OWNER_ID := {| username := Some (js "owner");
                                    first_name := None;
                                    last_name := None |} ]};
     requests := ∅;
     user_states := {[ BOT_OWNER_ID := awaiting_request ]} |}.

(** A sequence of doubles in [0, 1): multiples of [2^-53]. *)
Definition sample_random (i : nat) : rand :=
  {| mant := (Z.of_nat i * 1234567890123457 + 99) mod 2 ^ 53; expo := 53 |}.

Definition sample_world (p : option database) : world :=
  {| env_BASE_URL := None; SPONSOR_LINKS := [];
     pool := p; faults := []; random_source := sample_random;
     random_pos := 0; trace := [] |}.

(** ** Notions used by the further properties *)

(** The row of [users] that [upsertUser] writes for a Telegram user. *)
Definition user_row (u : telegram_user) : user :=
  {| username := or_null (tg_username u);
     first_name := or_null (tg_first_name u);
     last_name := or_null (tg_last_name u) |}.

(** The two greetings of [bot.start]. *)
Definition owner_greeting : jsstring :=
  js "Привет! Я бот, который помогает забирать NFT-подарок или звёзды у другого пользователя по специальной ссылке.".
Definition sponsor_greeting : jsstring :=
  js "Пожалуйста, подпишитесь на всех спонсоров и вернитесь.".

(** A computation that returns in every world. *)
Definition returns {A} (c : M A) : Prop :=
  forall w, exists a w', c w = (Returned a, w').

(** The world after the handler of a text has caught a failure of the
    [n]-th query of its run, the queries [qs] having been issued. *)
Definition failed_text_world (w : world) (p : option database)
    (pos : nat) (qs : list statement) : world :=
  {| env_BASE_URL := env_BASE_URL w;
     SPONSOR_LINKS := SPONSOR_LINKS w;
     pool := p;
     faults := drop (length qs) (faults w);
     random_source := random_source w;
     random_pos := pos;
     trace := trace w ++ List.map Query qs
              ++ [ConsoleError (js "Error handling text:");
                  Reply error_msg []] |}.

(** A code unit that [JSON.stringify] copies as it is: not a control
    character, not the double quote, not the backslash, not a
    surrogate. *)
Definition json_plain (c : Z) : bool :=
  (32 <=? c) && negb (c =? 34) && negb (c =? 92)
  && negb (is_high_surrogate c) && negb (is_low_surrogate c).

(** The button of the sponsor link at index [i]. *)
Definition sponsor_button (i : nat) (l : jsstring) : button :=
  UrlButton (js "Спонсор " ++ decimal (Z.of_nat i + 1)) l.

(** The characters of a host and of a path, as the URL pattern lists
    them. *)
Definition host_char (c : Z) : bool := is_word c || (c =? 46) || (c =? 45).

Definition path_punct : jsstring := js "-._~:/?#[]@!$&'()*+,;=".

Definition path_char (c : Z) : bool :=
  is_word c || existsb (Z.eqb c) path_punct.

Definition is_alpha (c : Z) : bool :=
  (65 <=? c) && (c <=? 90) || (97 <=? c) && (c <=? 122).

(** The shape of a URL in words: [http] or [https] in any case, then
    [://], a non-empty host, and either nothing more or a slash with a
    non-empty path. *)
Definition url_shape (s : jsstring) : Prop :=
  exists scheme host rest,
    s = scheme ++ js "://" ++ host ++ rest
    /\ (List.map canonicalize scheme = js "HTTP"
        \/ List.map canonicalize scheme = js "HTTPS")
    /\ host <> [] /\ forallb host_char host = true
    /\ (rest = []
        \/ exists path, rest = 47 :: path /\ path <> []
                        /\ forallb path_char path = true).

(** The value of a hexadecimal digit. *)
Definition hex_value (h : Z) : option Z :=
  if (48 <=? h) && (h <=? 57) then Some (h - 48)
  else if (97 <=? h) && (h <=? 102) then Some (h - 87)
  else if (65 <=? h) && (h <=? 70) then Some (h - 55)
  else None.

(** The code unit of a two-character escape of JSON. *)
Definition short_escape (e : Z) : option Z :=
  if e =? 34 then Some 34
  else if e =? 92 then Some 92
  else if e =? 47 then Some 47
  else if e =? 98 then Some 8
  else if e =? 102 then Some 12
  else if e =? 110 then Some 10
  else if e =? 114 then Some 13
  else if e =? 116 then Some 9
  else None.

(** The string that a JSON string body denotes, by the grammar of
    JSON; [None] when the body is not well formed. *)
Fixpoint json_unquote (s : jsstring) : option jsstring :=
  match s with
  | [] => Some []
  | c :: r =>
    if c =? 92 then
      match r with
      | e :: r' =>
        if e =? 117 then
          match r' with
          | h1 :: h2 :: h3 :: h4 :: r'' =>
            match hex_value h1, hex_value h2, hex_value h3, hex_value h4,
                  json_unquote r'' with
            | Some d1, Some d2, Some d3, Some d4, Some rest =>
              Some ((d1 * 4096 + d2 * 256 + d3 * 16 + d4) :: rest)
            | _, _, _, _, _ => None
            end
          | _ => None
          end
        else
          match short_escape e, json_unquote r' with
          | Some v, Some rest => Some (v :: rest)
          | _, _ => None
          end
      | [] => None
      end
    else if (c <? 32) || (c =? 34) then None
    else option_map (cons c) (json_unquote r)
  end.

Definition is_hex (c : Z) : bool :=
  (48 <=? c) && (c <=? 57) || (97 <=? c) && (c <=? 102)
  || (65 <=? c) && (c <=? 70).

(** The body of a JSON string by the grammar of JSON: a backslash
    starts an escape, a two-character one or [u] with four hexadecimal
    digits; outside an escape there is no double quote and no control
    character. *)
Fixpoint json_body_ok (s : jsstring) : bool :=
  match s with
  | [] => true
  | c :: r =>
    if c =? 92 then
      match r with
      | e :: r' =>
        if (e =? 34) || (e =? 92) || (e =? 47) || (e =? 98) || (e =? 102)
           || (e =? 110) || (e =? 114) || (e =? 116)
        then json_body_ok r'
        else if e =? 117 then
          match r' with
          | h1 :: h2 :: h3 :: h4 :: r'' =>
            is_hex h1 && is_hex h2 && is_hex h3 && is_hex h4
            && json_body_ok r''
          | _ => false
          end
        else false
      | [] => false
      end
    else (32 <=? c) && negb (c =? 34) && json_body_ok r
  end.

(** ** Further sample data *)

Definition db_empty : database :=
  {| users := ∅; requests := ∅; user_states := ∅ |}.

(** A sample world whose driver fails as the flags say. *)
Definition faulty_world (p : option database) (fs : list bool) : world :=
  with_faults fs (sample_world p).

Definition owner_user : telegram_user :=
  {| tg_id := BOT_OWNER_ID; tg_username := Some (js "owner");
     tg_first_name := Some (js "O"); tg_last_name := None |}.

Definition guest_user : telegram_user :=
  {| tg_id := 42; tg_username := None;
     tg_first_name := Some (js "G"); tg_last_name := Some [] |}.

(** * Properties *)

(** Literals are compared as literals, not code unit by code unit. *)
Opaque js.

(** ** The monad *)

Ltac run_monad :=
  repeat (unfold try_catch, bind, ret, read, emit, reply, console_error,
          has_pool; cbn [fst snd pool faults trace random_pos random_source
                         env_BASE_URL SPONSOR_LINKS with_pool with_faults
                         with_trace with_random_pos negb]).

Lemma bind_returned {A B} (c : M A) (k : A -> M B) w a w' :
  c w = (Returned a, w') -> bind c k w = k a w'.
Proof. intros H. unfold bind. by rewrite H. Qed.

Lemma bind_thrown {A B} (c : M A) (k : A -> M B) w w' :
  c w = (Thrown, w') -> bind c k w = (Thrown, w').
Proof. intros H. unfold bind. by rewrite H. Qed.

Lemma read_run {A} (f : world -> A) w : read f w = (Returned (f w), w).
Proof. reflexivity. Qed.

Lemma pool_query_ok {A} s (run : database -> option (A * database))
    w db a db' :
  pool w = Some db -> next_ok w = true -> run db = Some (a, db') ->
  pool_query s run w = (Returned a, with_pool (Some db') (tick s w)).
Proof.
  intros Hp Hok Hrun. unfold pool_query, next_ok, tick in *. rewrite Hp, Hrun.
  by destruct (faults w) as [|[|] fs].
Qed.

Lemma pool_query_fault {A} s (run : database -> option (A * database)) w db :
  pool w = Some db -> next_ok w = false ->
  pool_query s run w = (Thrown, tick s w).
Proof.
  intros Hp Hok. unfold pool_query, next_ok, tick in *. rewrite Hp.
  by destruct (faults w) as [|[|] fs].
Qed.

Lemma pool_query_violation {A} s (run : database -> option (A * database))
    w db :
  pool w = Some db -> run db = None ->
  pool_query s run w = (Thrown, tick s w).
Proof.
  intros Hp Hrun. unfold pool_query, tick. rewrite Hp, Hrun.
  by destruct (faults w) as [|[|] fs].
Qed.

Lemma with_pool_same w db : pool w = Some db -> with_pool (Some db) w = w.
Proof. destruct w; simpl; by intros ->. Qed.

(** Reading the state of a user changes no table. *)
Lemma getUserState_pool uid w : pool (snd (getUserState uid w)) = pool w.
Proof.
  unfold getUserState. run_monad.
  destruct (pool w) as [db|] eqn:Hp; simpl; [|done].
  destruct (next_ok w) eqn:Hok.
  - erewrite pool_query_ok; [|done..]. done.
  - erewrite pool_query_fault; [|done..]. simpl. done.
Qed.

Lemma getUserState_ok uid w db :
  pool w = Some db -> next_ok w = true ->
  getUserState uid w
  = (Returned (or_null (user_states db !! uid)), tick SelectState w).
Proof.
  intros Hp Hok. unfold getUserState. run_monad. rewrite Hp. simpl.
  erewrite pool_query_ok; [|done..].
  rewrite with_pool_same; done.
Qed.

(** ** Events of other users *)

Lemma on_get_link_other (uid : Z) (w : world) :
  uid <> BOT_OWNER_ID ->
  on_get_link uid w
  = (Returned tt,
     with_trace (trace w ++ [AnswerCbQuery (Some unavailable_msg)]) w).
Proof.
  intros Hne. unfold on_get_link.
  destruct (Z.eqb_spec uid BOT_OWNER_ID) as [->|_]; [done|].
  reflexivity.
Qed.

Lemma on_text_other_pool (uid : Z) (text : jsstring) (w : world) :
  uid <> BOT_OWNER_ID -> pool (snd (on_text uid text w)) = pool w.
Proof.
  intros Hne. unfold on_text.
  destruct (Z.eqb_spec uid BOT_OWNER_ID) as [->|_]; [done|].
  pose proof (getUserState_pool uid w) as Hs.
  unfold try_catch, bind.
  destruct (getUserState uid w) as [[st|] w']; simpl in *; done.
Qed.

(** C5: an event of a user other than the owner, the get-link action or
    a text message, leaves the whole database as it is: no row of
    [user_states] and no row of [requests] is created, changed or
    deleted. *)
Theorem other_users_change_nothing (uid : Z) (text : jsstring) (w : world) :
  uid <> BOT_OWNER_ID ->
  pool (snd (on_get_link uid w)) = pool w
  /\ pool (snd (on_text uid text w)) = pool w.
Proof.
  intros Hne. split.
  - by rewrite on_get_link_other.
  - by apply on_text_other_pool.
Qed.

(** ** The classifier *)

Lemma plus_loop_class ic cl s k :
  plus_loop ic cl s k = true ->
  exists c r, s = c :: r /\ class_matches ic cl c = true.
Proof.
  destruct s as [|c r]; simpl; [done|].
  intros [H _]%andb_true_iff. eauto.
Qed.

Lemma digit_class c : class_matches false [CDigit] c = is_digit c.
Proof. simpl. by rewrite orb_false_r. Qed.

(** The numeric rule: one or more decimal digits and nothing else. *)
Lemma isNumber_spec s :
  isNumber s = true <-> s <> [] /\ forallb is_digit s = true.
Proof.
  unfold isNumber, regex_test, number_re. cbn [rmatch]. split.
  - induction s as [|c r IH]; cbn [plus_loop forallb]; [done|].
    rewrite digit_class. intros [Hc Hr]%andb_true_iff. split; [done|].
    rewrite Hc. simpl. apply orb_true_iff in Hr as [Hr|Hr].
    + by apply IH.
    + by destruct r.
  - intros [Hne Hall]. induction s as [|c r IH]; [done|].
    cbn [plus_loop forallb] in *. rewrite digit_class.
    apply andb_true_iff in Hall as [-> Hall]. simpl.
    destruct r as [|d r']; [done|]. rewrite IH; done.
Qed.

Lemma rmatch_lit_cons ic a l r s k :
  rmatch ic (RLit (a :: l) r) s k
  = match s with
    | c :: s' => char_matches ic a c && rmatch ic (RLit l r) s' k
    | [] => false
    end.
Proof. reflexivity. Qed.

(** A text accepted by the URL rule starts with [h] or [H]. *)
Lemma isUrl_first s :
  isUrl s = true -> exists c r, s = c :: r /\ canonicalize c = 72.
Proof.
  unfold isUrl, regex_test, url_re.
  change (js "http") with [104; 116; 116; 112].
  rewrite rmatch_lit_cons. destruct s as [|c r]; [done|].
  intros [Hc _]%andb_true_iff. exists c, r. split; [done|].
  unfold char_matches in Hc. apply Z.eqb_eq in Hc.
  by rewrite <- Hc.
Qed.

Lemma digit_not_h c : is_digit c = true -> canonicalize c <> 72.
Proof. unfold is_digit, canonicalize. intros H. case_match; lia. Qed.

Lemma number_not_url s : isNumber s = true -> isUrl s = false.
Proof.
  intros Hn. destruct (isUrl s) eqn:Hu; [|done].
  apply isUrl_first in Hu as (c & r & -> & Hc).
  apply isNumber_spec in Hn as [_ Hall]. simpl in Hall.
  apply andb_true_iff in Hall as [Hd _].
  by apply digit_not_h in Hd.
Qed.

(** C2: no text is accepted by both rules, so the three classes exclude
    each other and cover every text: a text is of class stars exactly
    when the numeric rule accepts it, of class nft exactly when the URL
    rule accepts it, and of neither class exactly when both reject it. *)
Theorem classifier_total_deterministic (text : jsstring) :
  isNumber text && isUrl text = false
  /\ (classify text = Stars <-> isNumber text = true)
  /\ (classify text = Nft <-> isUrl text = true)
  /\ (classify text = Neither <->
      isNumber text = false /\ isUrl text = false).
Proof.
  unfold classify. destruct (isNumber text) eqn:Hn.
  - rewrite (number_not_url _ Hn). simpl. intuition congruence.
  - destruct (isUrl text); simpl; intuition congruence.
Qed.

(** ** The token generator *)

Lemma round53_small n : n < 2 ^ 53 -> round53 n = n.
Proof. intros H. unfold round53. case_match; lia. Qed.

(** Rounding a number of 53 to 59 bits moves it by at most 32 and
    never below zero. *)
Lemma round53_near n :
  0 <= n < 2 ^ 59 -> 0 <= round53 n <= n + 32.
Proof.
  intros [Hn0 Hn]. unfold round53.
  destruct (Z.ltb_spec n (2 ^ 53)) as [|Hge]; [lia|].
  assert (Hl : 53 <= Z.log2 n < 59).
  { split.
    - apply Z.log2_le_pow2; lia.
    - apply Z.log2_lt_pow2; lia. }
  set (e := Z.log2 n - 52).
  assert (He : 1 <= e <= 6) by lia.
  assert (Hhalf : 0 < 2 ^ (e - 1) <= 32).
  { split; [apply Z.pow_pos_nonneg; lia|].
    change 32 with (2 ^ 5). apply Z.pow_le_mono_r; lia. }
  assert (Hpow : 2 ^ e = 2 * 2 ^ (e - 1)).
  { replace e with (Z.succ (e - 1)) at 1 by lia.
    rewrite Z.pow_succ_r; lia. }
  pose proof (Z.div_mod n (2 ^ e) ltac:(lia)) as Hdm.
  pose proof (Z.mod_pos_bound n (2 ^ e) ltac:(lia)) as Hmod.
  assert (Hq : 0 <= n / 2 ^ e) by (apply Z.div_pos; lia).
  repeat case_match; nia.
Qed.

Lemma floor_mul_62 r :
  unit_double r = true -> 0 <= floor_mul r 62 < 62.
Proof.
  unfold unit_double, floor_mul. intros H.
  assert (Hm : 0 <= mant r < 2 ^ 53) by lia.
  assert (He : 0 <= expo r) by lia.
  assert (Hlt : mant r < 2 ^ expo r) by lia.
  assert (Hpos : 0 < 2 ^ expo r) by (apply Z.pow_pos_nonneg; lia).
  assert (Hr : 0 <= round53 (mant r * 62) < 62 * 2 ^ expo r).
  { destruct (Z.ltb_spec (mant r * 62) (2 ^ 53)) as [Hs|Hs].
    - rewrite round53_small; lia.
    - pose proof (round53_near (mant r * 62)) as Hn. lia. }
  split.
  - apply Z.div_pos; lia.
  - apply Z.div_lt_upper_bound; lia.
Qed.

Lemma alphabet_length : Z.of_nat (length alphabet) = 62.
Proof. reflexivity. Qed.

Lemma alphabet_alnum c : c ∈ alphabet <-> is_alnum c = true.
Proof.
  rewrite list_elem_of_In. split.
  - revert c. apply forallb_forall. reflexivity.
  - unfold is_alnum. intros H.
    let a := eval vm_compute in alphabet in change alphabet with a.
    simpl. lia.
Qed.

Lemma charAt_alphabet i :
  0 <= i < 62 -> exists c, charAt alphabet i = [c] /\ c ∈ alphabet.
Proof.
  intros Hi. unfold charAt.
  destruct (Z.ltb_spec i 0) as [|_]; [lia|].
  destruct (lookup_lt_is_Some_2 alphabet (Z.to_nat i)) as [c Hc].
  { pose proof alphabet_length. lia. }
  rewrite Hc. exists c. split; [done|].
  apply list_elem_of_lookup. eauto.
Qed.

Lemma token_chars_shape src pos n :
  (forall i, (i < n)%nat -> unit_double (src (pos + i)%nat) = true) ->
  length (token_chars src pos n) = n
  /\ Forall (fun c => c ∈ alphabet) (token_chars src pos n).
Proof.
  revert pos. induction n as [|n IH]; intros pos Hsrc; [by split|].
  cbn [token_chars]. rewrite alphabet_length.
  destruct (charAt_alphabet (floor_mul (src pos) 62)) as (c & -> & Hc).
  { apply floor_mul_62. specialize (Hsrc O ltac:(lia)).
    by rewrite Nat.add_0_r in Hsrc. }
  destruct (IH (S pos)) as [Hlen Hall].
  { intros i Hi. specialize (Hsrc (S i) ltac:(lia)).
    by rewrite Nat.add_succ_r in Hsrc. }
  simpl. split; [by rewrite Hlen|by constructor].
Qed.

Lemma token_loop_run n out w :
  token_loop n out w
  = (Returned (out ++ token_chars (random_source w) (random_pos w) n),
     with_random_pos (n + random_pos w) w).
Proof.
  revert out w. induction n as [|n IH]; intros out w.
  - simpl. unfold ret. rewrite app_nil_r. by destruct w.
  - cbn [token_loop token_chars]. unfold bind, Math_random.
    rewrite IH. cbn [random_source random_pos with_random_pos].
    rewrite <- app_assoc. unfold with_random_pos. simpl.
    by rewrite Nat.add_succ_r.
Qed.

Lemma generateRandomToken_run n w :
  generateRandomToken n w
  = (Returned (token_chars (random_source w) (random_pos w) n),
     with_random_pos (n + random_pos w) w).
Proof. unfold generateRandomToken. by rewrite token_loop_run. Qed.

Lemma randoms_ok_spec n w :
  randoms_ok n w = true ->
  forall i, (i < n)%nat ->
    unit_double (random_source w (random_pos w + i)%nat) = true.
Proof.
  unfold randoms_ok. rewrite forallb_forall. intros H i Hi.
  apply H. apply in_seq. lia.
Qed.

(** C4: when [Math.random()] yields doubles in [0, 1), the call
    [generateRandomToken(14)] of the flow returns a string of exactly 14
    characters, each one from the alphabet; the alphabet has 62
    characters, the upper case letters, the lower case letters and the
    decimal digits. *)
Theorem generateRandomToken_14 (w : world) :
  randoms_ok 14 w = true ->
  exists token w',
    generateRandomToken 14 w = (Returned token, w')
    /\ length token = 14%nat
    /\ (forall c, c ∈ token -> c ∈ alphabet)
    /\ length alphabet = 62%nat
    /\ (forall c, c ∈ alphabet <-> is_alnum c = true).
Proof.
  intros Hr. rewrite generateRandomToken_run. eexists _, _.
  split; [done|].
  destruct (token_chars_shape (random_source w) (random_pos w) 14)
    as [Hlen Hall]; [by apply randoms_ok_spec|].
  split; [done|]. split; [by apply Forall_forall|].
  split; [done|]. apply alphabet_alnum.
Qed.

(** ** The text handler for the owner *)

Lemma calm_S n s w :
  calm (S n) w = true -> next_ok w = true /\ calm n (tick s w) = true.
Proof.
  unfold calm, next_ok, tick. simpl.
  destruct (faults w) as [|[|] fs]; simpl; try done.
  by rewrite take_nil.
Qed.

Lemma saveRequest_ok token uid type value link w db :
  pool w = Some db -> next_ok w = true -> is_Some (users db !! uid) ->
  saveRequest token uid type value link w
  = (Returned tt,
     with_pool
       (Some (set_requests
                (insert token
                   {| user_id := uid; req_type := type;
                      request_value := String_of value;
                      generated_link := link |}) db))
       (tick UpsertRequest w)).
Proof.
  intros Hp Hok Hu. unfold saveRequest. run_monad. rewrite Hp. simpl.
  erewrite pool_query_ok; [done..|].
  unfold sql_upsert_request, references_user. simpl.
  by rewrite bool_decide_eq_true_2.
Qed.

Lemma clearUserState_ok uid w db :
  pool w = Some db -> next_ok w = true ->
  clearUserState uid w
  = (Returned tt,
     with_pool (Some (set_user_states (delete uid) db)) (tick DeleteState w)).
Proof.
  intros Hp Hok. unfold clearUserState. run_monad. rewrite Hp. simpl.
  by erewrite pool_query_ok.
Qed.

(** The owner's text reaches the classifier when the stored state is
    [awaiting_request]. *)
Lemma owner_gate : 
  negb (BOT_OWNER_ID =? BOT_OWNER_ID)
  || negb (bool_decide (or_null (Some awaiting_request)
                        = Some awaiting_request)) = false.
Proof. reflexivity. Qed.

(** A text that the classifier or the positivity check rejects is
    answered by a re-prompt; nothing else changes. *)
Lemma on_text_rejected (w : world) (db : database) (text : jsstring) :
  pool w = Some db ->
  user_states db !! BOT_OWNER_ID = Some awaiting_request ->
  next_ok w = true ->
  isNumber (trim text) = false /\ isUrl (trim text) = false
  \/ isNumber (trim text) = true /\ le_zero (parseInt10 (trim text)) = true ->
  on_text BOT_OWNER_ID text w
  = (Returned tt,
     with_trace
       (trace w ++ [Query SelectState;
                    Reply (if isNumber (trim text) then not_positive_msg
                           else invalid_msg) []])
       (with_faults (tail (faults w)) w)).
Proof.
  intros Hp Hst Hok Hbad. unfold on_text, try_catch.
  rewrite (bind_returned _ _ _ _ _ (getUserState_ok _ _ _ Hp Hok)).
  rewrite Hst, owner_gate.
  destruct Hbad as [[-> ->]|[-> Hle]]; cbn [negb andb value_le_zero].
  - unfold reply, emit, tick. simpl. by rewrite <- app_assoc.
  - rewrite Hle. unfold reply, emit, tick. simpl. by rewrite <- app_assoc.
Qed.

(** C6: when the owner is in state [awaiting_request] and the trimmed
    text is accepted by neither rule, or is a digit string whose value
    is not greater than zero, the handler answers with a corrective
    re-prompt and nothing else happens: the database is the same, so the
    state is still [awaiting_request] and no request was created. *)
Theorem invalid_text_reprompts (w : world) (db : database) (text : jsstring) :
  pool w = Some db ->
  user_states db !! BOT_OWNER_ID = Some awaiting_request ->
  next_ok w = true ->
  isNumber (trim text) = false /\ isUrl (trim text) = false
  \/ isNumber (trim text) = true /\ le_zero (parseInt10 (trim text)) = true ->
  exists msg w',
    on_text BOT_OWNER_ID text w = (Returned tt, w')
    /\ (msg = invalid_msg \/ msg = not_positive_msg)
    /\ trace w' = trace w ++ [Query SelectState; Reply msg []]
    /\ pool w' = Some db
    /\ (exists db', pool w' = Some db'
        /\ user_states db' !! BOT_OWNER_ID = Some awaiting_request
        /\ requests db' = requests db).
Proof.
  intros Hp Hst Hok Hbad.
  rewrite (on_text_rejected w db text Hp Hst Hok Hbad).
  exists (if isNumber (trim text) then not_positive_msg else invalid_msg).
  eexists. split; [done|]. simpl.
  split; [destruct (isNumber (trim text)); [right|left]; reflexivity|].
  split; [reflexivity|]. split; [exact Hp|]. by exists db.
Qed.

(** A valid text completes the flow. *)
Lemma on_text_accepted (w : world) (db : database) (text : jsstring) :
  pool w = Some db ->
  user_states db !! BOT_OWNER_ID = Some awaiting_request ->
  is_Some (users db !! BOT_OWNER_ID) ->
  calm 3 w = true ->
  isNumber (trim text) = true /\ le_zero (parseInt10 (trim text)) = false
  \/ isUrl (trim text) = true ->
  on_text BOT_OWNER_ID text w
  = (Returned tt, accepted_world w db (trim text)).
Proof.
  intros Hp Hst Hu Hcalm Hvalid. unfold on_text, try_catch.
  destruct (calm_S _ SelectState _ Hcalm) as [Hok1 Hcalm2].
  rewrite (bind_returned _ _ _ _ _ (getUserState_ok _ _ _ Hp Hok1)).
  rewrite Hst, owner_gate.
  set (t := trim text) in *.
  assert (Hcls : negb (isNumber t) && negb (isUrl t) = false).
  { destruct Hvalid as [[-> _]| ->]; [done|]. by rewrite andb_false_r. }
  assert (Hpos : isNumber t
                 && value_le_zero (if isNumber t then VNum (parseInt10 t)
                                   else VStr t) = false).
  { destruct Hvalid as [[-> H]|H]; [done|].
    destruct (isNumber t) eqn:Hn; [|done].
    apply number_not_url in Hn. congruence. }
  rewrite Hcls, Hpos.
  rewrite (bind_returned _ _ _ _ _ (generateRandomToken_run _ _)).
  rewrite (bind_returned _ _ _ _ _ (read_run BASE_URL _)).
  destruct (calm_S _ UpsertRequest _ Hcalm2) as [Hok2 Hcalm3].
  erewrite (bind_returned (saveRequest _ _ _ _ _)); cycle 1.
  { apply saveRequest_ok with (db := db); done. }
  destruct (calm_S _ DeleteState _ Hcalm3) as [Hok3 _].
  erewrite (bind_returned (clearUserState _)); cycle 1.
  { apply clearUserState_ok; done. }
  unfold reply, emit, accepted_world, accepted_request, next_token, tick.
  cbn -[js token_chars set_user_states set_requests String_of].
  repeat rewrite <- app_assoc. simpl app.
  replace (tail (tail (tail (faults w)))) with (drop 3 (faults w))
    by (by destruct (faults w) as [|? [|? [|? ?]]]).
  reflexivity.
Qed.

(** ** The link page *)

Lemma occurs_in_intro (pre s post t : jsstring) :
  t = pre ++ s ++ post -> occurs_in s t.
Proof. intros ->. by exists pre, post. Qed.

Lemma occurs_in_app_r (s t u : jsstring) :
  occurs_in s t -> occurs_in s (t ++ u).
Proof.
  intros (pre & post & ->). exists pre, (post ++ u).
  by rewrite <- !app_assoc.
Qed.

Lemma occurs_in_app_l (s t u : jsstring) :
  occurs_in s t -> occurs_in s (u ++ t).
Proof.
  intros (pre & post & ->). exists (u ++ pre), post.
  by rewrite <- !app_assoc.
Qed.

Lemma truthy_nonempty s : truthy s = true <-> s <> [].
Proof. by destruct s. Qed.

Lemma page_after_heading_split :
  exists pre, page_after_heading = pre ++ desc_open.
Proof. exists (js "</div>" ++ nl ++ js "    "). vm_compute. reflexivity. Qed.

Lemma page_after_desc_split :
  exists post, page_after_desc = div_close ++ post.
Proof. exists (nl ++ js "    "). vm_compute. reflexivity. Qed.

Lemma page_description_false fullUrl :
  page_description fullUrl false = copy_hint ++ fullUrl.
Proof. reflexivity. Qed.

(** The description of a page that is not the not-found page holds the
    full URL as it is. *)
Lemma page_has_url fullUrl row :
  occurs_in (desc_open ++ copy_hint ++ fullUrl ++ div_close)
            (buildCopyHtml fullUrl row false).
Proof.
  destruct page_after_heading_split as [pre Hpre].
  destruct page_after_desc_split as [post Hpost].
  unfold buildCopyHtml.
  rewrite page_description_false, Hpre, Hpost. clear Hpre Hpost.
  generalize page_head (page_title false) page_after_title
    (value_block (displayValue row)) page_after_value
    (JSON_stringify fullUrl) page_tail desc_open copy_hint div_close.
  intros hd ti at_ vb av json tl dopen hint dclose.
  exists (hd ++ ti ++ at_ ++ ti ++ pre), (post ++ vb ++ av ++ json ++ tl).
  rewrite <- !app_assoc. reflexivity.
Qed.

(** The value slot holds the block of the display value. *)
Lemma page_has_value_block fullUrl row notFound :
  occurs_in (value_block (displayValue row))
            (buildCopyHtml fullUrl row notFound).
Proof.
  unfold buildCopyHtml.
  generalize page_head (page_title notFound) page_after_title
    page_after_heading (page_description fullUrl notFound) page_after_desc
    (value_block (displayValue row)) page_after_value
    (JSON_stringify fullUrl) page_tail.
  intros hd ti at_ ah de ad vb av json tl.
  exists (hd ++ ti ++ at_ ++ ti ++ ah ++ de ++ ad), (av ++ json ++ tl).
  rewrite <- !app_assoc. reflexivity.
Qed.

Lemma value_block_shown d :
  d <> [] -> value_block d = value_open ++ d ++ div_close.
Proof.
  intros Hd%truthy_nonempty. unfold value_block. rewrite Hd.
  unfold value_open, div_close. by rewrite <- !app_assoc.
Qed.

Lemma displayValue_row r :
  displayValue (Some r) = request_value r ++ unit_label (req_type r).
Proof.
  unfold displayValue, unit_label.
  destruct (req_type r); [done|by rewrite app_nil_r].
Qed.

(** C10: the page built for a full URL and a stored row holds, as HTML
    text of the description, the full URL as it is, and so the token
    that ends it; and it holds in the value slot the stored value as it
    is, followed by the unit label for stars.  Nothing is escaped:
    the code units of the URL and of the value are the code units of
    the page. *)
Theorem page_embeds_verbatim (base token : jsstring) (row : request) :
  let fullUrl := base ++ js "/c/" ++ token in
  let page := buildCopyHtml fullUrl (Some row) false in
  let shown := request_value row ++ unit_label (req_type row) in
  occurs_in (desc_open ++ copy_hint ++ base ++ js "/c/" ++ token
             ++ div_close) page
  /\ displayValue (Some row) = shown
  /\ occurs_in (if truthy shown then value_open ++ shown ++ div_close
                else []) page.
Proof.
  intros fullUrl page shown. split; [|split].
  - pose proof (page_has_url fullUrl (Some row)) as H.
    unfold fullUrl in H at 1. by rewrite <- !app_assoc in H.
  - apply displayValue_row.
  - pose proof (page_has_value_block fullUrl (Some row) false) as H.
    rewrite displayValue_row in H. fold shown in H.
    unfold value_block in H. destruct (truthy shown); [|done].
    unfold value_open, div_close. by rewrite <- !app_assoc.
Qed.

(** ** The route *)

Lemma copy_page_degraded token w :
  pool w = None ->
  copy_page token w
  = (Returned {| status := 200;
                 body := buildCopyHtml (BASE_URL w ++ js "/c/" ++ token)
                           None false |}, w).
Proof. intros Hp. unfold copy_page. run_monad. by rewrite Hp. Qed.

Lemma copy_page_lookup token w db :
  pool w = Some db -> next_ok w = true -> has_nul token = false ->
  copy_page token w
  = (Returned
       match requests db !! token with
       | None =>
         {| status := 404;
            body := buildCopyHtml (BASE_URL w ++ js "/c/" ++ token)
                      None true |}
       | Some r =>
         {| status := 200;
            body := buildCopyHtml (BASE_URL w ++ js "/c/" ++ token)
                      (Some r) false |}
       end, tick SelectRequest w).
Proof.
  intros Hp Hok Hnul. unfold copy_page. run_monad. rewrite Hp. simpl.
  erewrite pool_query_ok; [|done|done|unfold sql_select_request;
                                     by rewrite Hnul].
  rewrite with_pool_same by done.
  by destruct (requests db !! token).
Qed.

Lemma copy_page_fault token w db :
  pool w = Some db -> next_ok w = false ->
  copy_page token w
  = (Returned {| status := 500; body := js "Server error" |},
     with_trace (trace w ++ [Query SelectRequest;
                             ConsoleError (js "Error in /c/:token")])
       (with_faults (tail (faults w)) w)).
Proof.
  intros Hp Hok. unfold copy_page. run_monad. rewrite Hp. simpl.
  erewrite pool_query_fault; [|done..].
  unfold tick. simpl. by rewrite <- app_assoc.
Qed.

(** A token that holds U+0000 makes the lookup fail. *)
Lemma copy_page_rejected token w db :
  pool w = Some db -> has_nul token = true ->
  copy_page token w
  = (Returned {| status := 500; body := js "Server error" |},
     with_trace (trace w ++ [Query SelectRequest;
                             ConsoleError (js "Error in /c/:token")])
       (with_faults (tail (faults w)) w)).
Proof.
  intros Hp Hnul. unfold copy_page. run_monad. rewrite Hp. simpl.
  erewrite pool_query_violation;
    [|done|unfold sql_select_request; by rewrite Hnul].
  unfold tick. simpl. by rewrite <- app_assoc.
Qed.

(** The not-found page differs from every page of the other variant:
    its title is another one. *)
Lemma not_found_page_distinct u u' row :
  buildCopyHtml u None true <> buildCopyHtml u' row false.
Proof.
  unfold buildCopyHtml. intros H. apply app_inv_head in H.
  vm_compute page_title in H. discriminate.
Qed.

(** C7, as amended: with a database configured and a lookup that does
    not fail, a token that holds no U+0000 and has no stored request is
    answered with status 404 and the not-found variant of the page,
    which differs from every page of the other variant; the lookup
    changes no table.  Status 500 is the answer of the route exactly
    when the lookup fails: the driver fails, or the token holds U+0000
    and PostgreSQL rejects it. *)
Theorem unknown_token_not_found (w : world) (db : database)
    (token : jsstring) :
  pool w = Some db ->
  next_ok w = true ->
  has_nul token = false ->
  requests db !! token = None ->
  let page := buildCopyHtml (BASE_URL w ++ js "/c/" ++ token) None true in
  copy_page token w
  = (Returned {| status := 404; body := page |}, tick SelectRequest w)
  /\ pool (tick SelectRequest w) = Some db
  /\ (forall u row, page <> buildCopyHtml u row false)
  /\ (forall tok w0 r w0',
        copy_page tok w0 = (Returned r, w0') ->
        status r = 500 <->
        exists db0, pool w0 = Some db0
                    /\ (next_ok w0 = false \/ has_nul tok = true)).
Proof.
  intros Hp Hok Hnul Hnone page. split; [|split; [done|split]].
  - rewrite (copy_page_lookup _ _ _ Hp Hok Hnul). by rewrite Hnone.
  - intros u row. apply not_found_page_distinct.
  - intros tok w0 r w0' Hrun. destruct (pool w0) as [db0|] eqn:Hp0.
    + destruct (has_nul tok) eqn:Hnul0.
      { rewrite (copy_page_rejected _ _ _ Hp0 Hnul0) in Hrun.
        injection Hrun as <- _. split; [eauto|done]. }
      destruct (next_ok w0) eqn:Hok0.
      * rewrite (copy_page_lookup _ _ _ Hp0 Hok0 Hnul0) in Hrun.
        injection Hrun as <- _.
        split; [destruct (requests db0 !! tok); done|].
        by intros (? & _ & [?|?]).
      * rewrite (copy_page_fault _ _ _ Hp0 Hok0) in Hrun.
        injection Hrun as <- _. split; [eauto|done].
    + rewrite (copy_page_degraded _ _ Hp0) in Hrun.
      injection Hrun as <- _. split; [done|]. by intros (? & ? & _).
Qed.

(** C7, as stated, fails at a token the route can receive: for
    [GET /c/%00] the token is the one code unit U+0000; no request is
    stored under it and the driver does not fail, yet the lookup is
    rejected and the route answers 500, not 404. *)
Lemma nul_token_server_error :
  let w := sample_world (Some db_awaiting) in
  requests db_awaiting !! [0] = None
  /\ next_ok w = true
  /\ fst (copy_page [0] w)
     = Returned {| status := 500; body := js "Server error" |}.
Proof.
  intros w. split; [by vm_compute|]. split; [done|].
  by rewrite (copy_page_rejected [0] w db_awaiting).
Qed.

(** C8: without a database the route issues no query and changes
    nothing; it answers with status 200 and a page whose description
    shows the URL made of the base URL, [/c/] and the token, and whose
    value slot is empty: the value slot of the template is followed
    directly by what comes after it. *)
Theorem degraded_page (w : world) (token : jsstring) :
  pool w = None ->
  let fullUrl := BASE_URL w ++ js "/c/" ++ token in
  exists page,
    copy_page token w = (Returned {| status := 200; body := page |}, w)
    /\ occurs_in (desc_open ++ copy_hint ++ BASE_URL w ++ js "/c/" ++ token
                 ++ div_close) page
    /\ displayValue None = []
    /\ page = page_head ++ page_title false ++ page_after_title
              ++ page_title false ++ page_after_heading
              ++ (copy_hint ++ fullUrl) ++ page_after_desc
              ++ page_after_value ++ JSON_stringify fullUrl ++ page_tail.
Proof.
  intros Hp fullUrl. eexists. split; [by apply copy_page_degraded|].
  split; [|split; [done|done]].
  pose proof (page_has_url fullUrl None) as H.
  unfold fullUrl in H at 1. by rewrite <- !app_assoc in H.
Qed.

(** ** Valid texts *)

Lemma isUrl_nonempty t : isUrl t = true -> t <> [].
Proof. intros H ->. done. Qed.

Lemma calm_4 w :
  calm 4 w = true -> calm 3 w = true /\ nth 3 (faults w) false = false.
Proof.
  unfold calm.
  destruct (faults w) as [|[|] [|[|] [|[|] [|[|] ?]]]]; simpl; done.
Qed.


(** ** The stored count of stars *)

Lemma digit_cases c :
  is_digit c = true ->
  c = 48 \/ c = 49 \/ c = 50 \/ c = 51 \/ c = 52 \/ c = 53 \/ c = 54
  \/ c = 55 \/ c = 56 \/ c = 57.
Proof. unfold is_digit. lia. Qed.

Lemma takeWhile_digit_all s :
  forallb is_digit s = true -> takeWhile_digit s = s.
Proof.
  induction s as [|c r IH]; [done|]. simpl.
  intros [-> Hr]%andb_true_iff. by rewrite IH.
Qed.

(** On a text of the numeric rule [parseInt] reads every digit. *)
Lemma parseInt10_number t :
  isNumber t = true -> parseInt10 t = number_of_nat false (digits_value t).
Proof.
  intros [Hne Hall]%isNumber_spec.
  destruct t as [|c r]; [done|]. clear Hne.
  pose proof (takeWhile_digit_all _ Hall) as Htw.
  simpl in Hall. apply andb_true_iff in Hall as [Hc _].
  unfold parseInt10.
  destruct (digit_cases c Hc) as [->|[->|[->|[->|[->|[->|[->|[->|[->| ->]]]]]]]]];
    cbn [trimStart is_js_space]; simpl; simpl in Htw; by rewrite Htw.
Qed.

(** Up to [2^53] the number is the integer and its string is the
    decimal numeral. *)
Lemma number_of_nat_exact n :
  0 <= n <= 2 ^ 53 ->
  number_of_nat false n = Num n /\ number_toString (Num n) = decimal n.
Proof.
  intros Hn. destruct (Z.eq_dec n (2 ^ 53)) as [->|Hne]; [by vm_compute|].
  unfold number_of_nat. rewrite round53_small by lia.
  assert (H1024 : 2 ^ 53 < 2 ^ 1024) by (apply Z.pow_lt_mono_r; lia).
  destruct (Z.leb_spec (2 ^ 1024) n) as [|_]; [lia|]. split; [done|].
  unfold number_toString, nat_toString.
  destruct (Z.ltb_spec n 0) as [|_]; [lia|].
  destruct (Z.ltb_spec n (2 ^ 53)) as [_|]; [done|lia].
Qed.

(** C3, as amended: for a trimmed text of the numeric rule whose value
    lies between 1 and [2^53], the text is of class stars, the handler
    completes the flow, and the request stored under the token has type
    stars and as value the decimal numeral of that integer.  The text
    ["0"] is answered by the re-prompt for a count that is not positive
    and the database stays as it is; the text ["007"] is accepted and
    stored with value ["7"]. *)
Theorem stars_value_stored (w : world) (db : database) (text : jsstring) :
  pool w = Some db ->
  user_states db !! BOT_OWNER_ID = Some awaiting_request ->
  references_user db BOT_OWNER_ID = true ->
  calm 3 w = true ->
  isNumber (trim text) = true ->
  0 < digits_value (trim text) <= 2 ^ 53 ->
  (classify (trim text) = Stars
   /\ exists w1 db1 r,
       on_text BOT_OWNER_ID text w = (Returned tt, w1)
       /\ pool w1 = Some db1
       /\ requests db1 !! next_token w = Some r
       /\ req_type r = stars
       /\ request_value r = decimal (digits_value (trim text)))
  /\ (exists w0,
        on_text BOT_OWNER_ID (js "0") w = (Returned tt, w0)
        /\ trace w0 = trace w ++ [Query SelectState;
                                  Reply not_positive_msg []]
        /\ pool w0 = Some db)
  /\ (exists w7 db7 r,
        on_text BOT_OWNER_ID (js "007") w = (Returned tt, w7)
        /\ pool w7 = Some db7
        /\ requests db7 !! next_token w = Some r
        /\ req_type r = stars
        /\ request_value r = js "7").
Proof.
  intros Hp Hst Hu Hcalm Hnum Hval.
  apply bool_decide_eq_true in Hu.
  assert (Hstored : forall txt,
    isNumber (trim txt) = true ->
    0 < digits_value (trim txt) <= 2 ^ 53 ->
    exists w1 db1 r,
      on_text BOT_OWNER_ID txt w = (Returned tt, w1)
      /\ pool w1 = Some db1
      /\ requests db1 !! next_token w = Some r
      /\ req_type r = stars
      /\ request_value r = decimal (digits_value (trim txt))).
  { intros txt Hn Hv.
    pose proof (parseInt10_number _ Hn) as Hparse.
    destruct (number_of_nat_exact (digits_value (trim txt))) as [Hnum' Hstr];
      [lia|].
    rewrite Hnum' in Hparse.
    exists (accepted_world w db (trim txt)). eexists _, _.
    split.
    { apply on_text_accepted; try done. left. split; [done|].
      rewrite Hparse. simpl. lia. }
    split; [reflexivity|]. split; [simpl; by rewrite lookup_insert_eq|].
    unfold accepted_request. simpl. rewrite Hn. split; [done|].
    simpl. by rewrite Hparse. }
  split; [|split].
  - split; [|by apply Hstored].
    unfold classify. by rewrite Hnum.
  - eexists. split.
    + apply on_text_rejected with (db := db); try done.
      * by destruct (calm_S _ SelectState _ Hcalm).
      * right. by vm_compute.
    + by vm_compute (isNumber (trim (js "0"))).
  - destruct (Hstored (js "007")) as (w7 & db7 & r & H); [done|by vm_compute|].
    by exists w7, db7, r.
Qed.

(** C3, as stated, fails beyond [2^53]: the digit string
    ["9007199254740993"] has a positive value, the handler accepts it,
    and the request it stores holds ["9007199254740992"], which is not
    the numeral of the integer that was sent. *)
Lemma stars_value_rounded :
  let text := js "9007199254740993" in
  let w := sample_world (Some db_awaiting) in
  isNumber (trim text) = true
  /\ digits_value (trim text) = 9007199254740993
  /\ on_text BOT_OWNER_ID text w
     = (Returned tt, accepted_world w db_awaiting (trim text))
  /\ request_value (accepted_request w (trim text)) = js "9007199254740992"
  /\ request_value (accepted_request w (trim text))
     <> decimal (digits_value (trim text)).
Proof.
  intros text w. split; [by vm_compute|]. split; [by vm_compute|].
  split; [|split].
  - apply on_text_accepted; try by vm_compute.
    + by eexists.
    + left. by vm_compute.
  - by vm_compute.
  - by vm_compute.
Qed.

(** ** The round trip *)

Lemma charAt_alphabet_any i :
  charAt alphabet i = [] \/ exists c, charAt alphabet i = [c] /\ c ∈ alphabet.
Proof.
  unfold charAt. destruct (i <? 0); [by left|].
  destruct (alphabet !! Z.to_nat i) as [c|] eqn:Hc; [|by left].
  right. exists c. split; [done|]. apply list_elem_of_lookup. eauto.
Qed.

Lemma token_chars_any src pos n :
  (length (token_chars src pos n) <= n)%nat
  /\ Forall (fun c => c ∈ alphabet) (token_chars src pos n).
Proof.
  revert pos. induction n as [|n IH]; intros pos; [by split|].
  cbn [token_chars]. destruct (IH (S pos)) as [Hlen Hall].
  destruct (charAt_alphabet_any
              (floor_mul (src pos) (Z.of_nat (length alphabet))))
    as [->|(c & -> & Hc)]; simpl.
  - split; [lia|done].
  - split; [lia|by constructor].
Qed.

(** A token of the generator never holds U+0000. *)
Lemma next_token_no_nul w : has_nul (next_token w) = false.
Proof.
  unfold has_nul, next_token.
  destruct (token_chars_any (random_source w) (random_pos w) 14) as [_ Hall].
  induction Hall as [|c l Hc _ IH]; [done|]. cbn [existsb]. rewrite IH.
  apply alphabet_alnum in Hc. unfold is_alnum in Hc.
  destruct (Z.eqb_spec 0 c) as [<-|_]; done.
Qed.

Lemma accepted_then_resolved w db t :
  nth 3 (faults w) false = false ->
  copy_page (next_token w) (accepted_world w db t)
  = (Returned
       {| status := 200;
          body := buildCopyHtml (BASE_URL w ++ js "/c/" ++ next_token w)
                    (Some (accepted_request w t)) false |},
     tick SelectRequest (accepted_world w db t)).
Proof.
  intros Hfourth. erewrite copy_page_lookup; cycle 1.
  - reflexivity.
  - unfold next_ok, accepted_world. simpl.
    destruct (faults w) as [|? [|? [|? [|[|] ?]]]]; done.
  - apply next_token_no_nul.
  - simpl. by rewrite lookup_insert_eq.
Qed.

Lemma accepted_page_shows_value w t fullUrl :
  isNumber t = true /\ le_zero (parseInt10 t) = false \/ isUrl t = true ->
  occurs_in
    (value_open
     ++ (if isNumber t then number_toString (parseInt10 t) ++ js " звёзд"
         else t)
     ++ div_close)
    (buildCopyHtml fullUrl (Some (accepted_request w t)) false).
Proof.
  intros Hvalid.
  pose proof (page_has_value_block fullUrl (Some (accepted_request w t))
                false) as H.
  rewrite displayValue_row in H. rewrite value_block_shown in H.
  - unfold accepted_request in *. cbn [request_value req_type] in H.
    destruct (isNumber t); cbn [String_of unit_label] in H; [exact H|].
    rewrite app_nil_r in H. exact H.
  - unfold accepted_request. cbn [request_value req_type].
    destruct (isNumber t) eqn:Hn; cbn [String_of unit_label].
    + intros [_ Hnil]%app_eq_nil. vm_compute in Hnil. discriminate.
    + rewrite app_nil_r. apply isUrl_nonempty.
      destruct Hvalid as [[? _]|?]; congruence.
Qed.

(** Up to [2^53] the count passes the check and its string is the
    decimal numeral of the value of the digits. *)
Lemma count_exact t :
  isNumber t = true -> 0 < digits_value t <= 2 ^ 53 ->
  le_zero (parseInt10 t) = false
  /\ number_toString (parseInt10 t) = decimal (digits_value t).
Proof.
  intros Hn Hv. rewrite (parseInt10_number t Hn).
  destruct (number_of_nat_exact (digits_value t)) as [-> Hstr]; [lia|].
  split; [simpl; lia|done].
Qed.

Lemma indexOf_at_unfold p s pos :
  indexOf_at p s pos
  = if startsWith p s then Some pos
    else match s with
         | [] => None
         | _ :: s' => indexOf_at p s' (S pos)
         end.
Proof. by destruct s. Qed.

Lemma startsWith_app p r : startsWith p (p ++ r) = true.
Proof.
  induction p as [|a p IH]; [by destruct r|].
  cbn [app startsWith]. by rewrite Z.eqb_refl, IH.
Qed.

(** What occurs in a string is found by [includes]. *)
Lemma occurs_includes s t : occurs_in s t -> includes s t = true.
Proof.
  intros (pre & post & ->). unfold includes.
  assert (H : forall pos, is_Some (indexOf_at s (pre ++ s ++ post) pos)).
  { induction pre as [|c pre IH]; intros pos; rewrite indexOf_at_unfold.
    - cbn [app]. rewrite startsWith_app. by eexists.
    - destruct (startsWith s ((c :: pre) ++ s ++ post)); [by eexists|].
      cbn [app]. apply IH. }
  by destruct (H 0%nat) as [i ->].
Qed.

(** C1, as amended: when the owner is in state [awaiting_request] and
    sends a text whose trimmed form is a digit string of a value
    between 1 and [2^53] or a URL, and no query fails, the handler
    stores the request under a fresh token of 14 alphanumeric
    characters and replies with the link that ends in it; resolving
    that token by the route then gives a page with status 200 whose
    value block holds the display form of the value that was sent: the
    decimal numeral of the count followed by the unit label of stars,
    or the URL text itself. *)
Theorem link_round_trip (w : world) (db : database) (text : jsstring) :
  pool w = Some db ->
  user_states db !! BOT_OWNER_ID = Some awaiting_request ->
  references_user db BOT_OWNER_ID = true ->
  calm 4 w = true ->
  randoms_ok 14 w = true ->
  isNumber (trim text) = true /\ 0 < digits_value (trim text) <= 2 ^ 53
  \/ isUrl (trim text) = true ->
  exists token w1 page w2,
    on_text BOT_OWNER_ID text w = (Returned tt, w1)
    /\ trace w1
       = trace w ++ [Query SelectState; Query UpsertRequest;
                     Query DeleteState;
                     Reply (done_msg (BASE_URL w ++ js "/c/" ++ token)) []]
    /\ length token = 14%nat
    /\ (forall c, c ∈ token -> is_alnum c = true)
    /\ copy_page token w1 = (Returned {| status := 200; body := page |}, w2)
    /\ occurs_in
         (value_open
          ++ (if isNumber (trim text)
              then decimal (digits_value (trim text)) ++ js " звёзд"
              else trim text)
          ++ div_close) page.
Proof.
  intros Hp Hst Hu Hcalm Hrand Hsent.
  apply bool_decide_eq_true in Hu.
  destruct (calm_4 _ Hcalm) as [Hcalm3 Hfourth].
  set (t := trim text) in *.
  assert (Hvalid : isNumber t = true /\ le_zero (parseInt10 t) = false
                   \/ isUrl t = true).
  { destruct Hsent as [[Hn Hv]|Hurl]; [left|by right].
    split; [done|]. by destruct (count_exact t Hn Hv). }
  exists (next_token w), (accepted_world w db t).
  eexists _, _.
  split; [by apply on_text_accepted|]. split; [done|].
  destruct (token_chars_shape (random_source w) (random_pos w) 14)
    as [Hlen Hall]; [by apply randoms_ok_spec|].
  split; [done|].
  split. { intros c Hc. apply alphabet_alnum.
           by apply (proj1 (Forall_forall _ _) Hall). }
  split; [by apply accepted_then_resolved|].
  pose proof (accepted_page_shows_value w t
                (BASE_URL w ++ js "/c/" ++ next_token w) Hvalid) as Hshow.
  destruct (isNumber t) eqn:Hn; [|exact Hshow].
  destruct Hsent as [[_ Hv]|Hurl].
  - destruct (count_exact t Hn Hv) as [_ <-]. exact Hshow.
  - apply number_not_url in Hn. congruence.
Qed.

(** C1, as stated, fails beyond [2^53]: for the digit string
    ["9007199254740993"] the flow completes and the token resolves to a
    page with status 200, but the page shows ["9007199254740992 звёзд"]
    and the count that was sent occurs nowhere in it. *)
Lemma round_trip_value_rounded :
  let text := js "9007199254740993" in
  let w := sample_world (Some db_awaiting) in
  let w1 := snd (on_text BOT_OWNER_ID text w) in
  isNumber (trim text) = true
  /\ digits_value (trim text) = 9007199254740993
  /\ fst (on_text BOT_OWNER_ID text w) = Returned tt
  /\ last (trace w1)
     = Some (Reply (done_msg (BASE_URL w ++ js "/c/" ++ next_token w)) [])
  /\ exists page,
       fst (copy_page (next_token w) w1)
       = Returned {| status := 200; body := page |}
       /\ occurs_in (value_open ++ js "9007199254740992 звёзд" ++ div_close)
                    page
       /\ ~ occurs_in (decimal (digits_value (trim text))) page.
Proof.
  intros text w w1. split; [by vm_compute|]. split; [by vm_compute|].
  assert (Hvalid : isNumber (trim text) = true
                   /\ le_zero (parseInt10 (trim text)) = false
                   \/ isUrl (trim text) = true)
    by (left; by vm_compute).
  assert (Hrun : on_text BOT_OWNER_ID text w
                 = (Returned tt, accepted_world w db_awaiting (trim text))).
  { apply on_text_accepted; try by vm_compute. by eexists. }
  unfold w1. rewrite Hrun. cbn [fst snd]. split; [done|].
  split. { unfold accepted_world. cbn [trace]. by rewrite last_app. }
  eexists. split.
  { by rewrite (accepted_then_resolved w db_awaiting (trim text) eq_refl). }
  split.
  - pose proof (accepted_page_shows_value w (trim text)
                  (BASE_URL w ++ js "/c/" ++ next_token w) Hvalid) as Hshow.
    replace (js "9007199254740992 звёзд")
      with (number_toString (parseInt10 (trim text)) ++ js " звёзд")
      by (vm_compute; reflexivity).
    exact Hshow.
  - intros H%occurs_includes. vm_compute in H. discriminate.
Qed.

(** ** Sponsor links *)

Lemma existsb_eqb_elem (x : jsstring) seen :
  existsb (jsstring_eqb x) seen = true <-> x ∈ seen.
Proof.
  rewrite existsb_exists, list_elem_of_In. unfold jsstring_eqb. split.
  - intros (y & Hy & ->%bool_decide_eq_true). done.
  - intros Hx. exists x. split; [done|]. by apply bool_decide_eq_true.
Qed.

Lemma Set_from_fresh l seen x :
  x ∈ Set_from l seen <-> x ∈ l /\ x ∉ seen.
Proof.
  revert seen. induction l as [|y r IH]; intros seen; simpl.
  - split; [by intros ?%elem_of_nil|by intros [?%elem_of_nil _]].
  - destruct (existsb (jsstring_eqb y) seen) eqn:Hy.
    + apply existsb_eqb_elem in Hy. rewrite IH, elem_of_cons.
      split; [tauto|]. intros [[Hxy|?] ?]; [|done]. by subst.
    + assert (Hn : y ∉ seen).
      { intros Hin%existsb_eqb_elem. congruence. }
      rewrite !elem_of_cons, IH, elem_of_cons.
      split.
      * intros [Hxy|[? ?]]; [by subst; auto|]. tauto.
      * intros [[Hxy|?] ?]; [by left|].
        destruct (decide (x = y)); [by left|]. right. tauto.
Qed.

(** The path that finds [https://t.me/] links lists no link twice. *)
Lemma Set_from_NoDup l seen : NoDup (Set_from l seen).
Proof.
  revert seen. induction l as [|y r IH]; intros seen; simpl.
  - constructor.
  - destruct (existsb (jsstring_eqb y) seen); [apply IH|].
    constructor; [|apply IH].
    intros [_ Hn]%Set_from_fresh. apply Hn. by left.
Qed.

(** C9 fails on the fallback path: a raw string without a
    [https://t.me/] link is split at the commas and returned without
    the removal of duplicates that the other path applies; for
    ["t.me/a,t.me/a"] the parser returns the same link twice. *)
Theorem sponsor_fallback_keeps_duplicates :
  normalizeSponsorLinks (js "t.me/a,t.me/a")
  = Some [js "t.me/a"; js "t.me/a"]
  /\ ~ NoDup [js "t.me/a"; js "t.me/a"]
  /\ normalizeSponsorLinks (js "https://t.me/a,https://t.me/a")
     = Some [js "https://t.me/a"].
Proof.
  split; [by vm_compute|]. split; [|by vm_compute].
  intros H. apply NoDup_cons in H as [Hin _]. apply Hin. by left.
Qed.

(** ** Instances *)

Lemma link_round_trip_witness :
  exists token w1 page w2,
    on_text BOT_OWNER_ID (js " 42 ") (sample_world (Some db_awaiting))
    = (Returned tt, w1)
    /\ last (trace w1) = Some (Reply (done_msg (js "https://borkstudio/c/" ++ token)) [])
    /\ length token = 14%nat
    /\ copy_page token w1 = (Returned {| status := 200; body := page |}, w2)
    /\ occurs_in (value_open ++ js "42 звёзд" ++ div_close) page.
Proof.
  destruct (link_round_trip (sample_world (Some db_awaiting)) db_awaiting
              (js " 42 "))
    as (token & w1 & page & w2 & H1 & H2 & H3 & _ & H5 & H6).
  - reflexivity.
  - vm_compute. reflexivity.
  - vm_compute. reflexivity.
  - reflexivity.
  - vm_compute. reflexivity.
  - left. split; [vm_compute; reflexivity|].
    vm_compute. split; [reflexivity|discriminate].
  - exists token, w1, page, w2. split; [exact H1|].
    split; [rewrite H2; reflexivity|]. split; [exact H3|].
    split; [exact H5|].
    replace (js "42 звёзд")
      with (if isNumber (trim (js " 42 "))
            then decimal (digits_value (trim (js " 42 "))) ++ js " звёзд"
            else trim (js " 42 "))
      by (vm_compute; reflexivity).
    exact H6.
Defined.

Lemma classifier_example :
  classify (js "007") = Stars
  /\ classify (js "https://t.me/gift/1?x=[2]") = Nft
  /\ classify (js "hello world") = Neither.
Proof. by vm_compute. Qed.

Lemma stars_value_stored_witness :
  exists w1 db1 r,
    on_text BOT_OWNER_ID (js "42") (sample_world (Some db_awaiting))
    = (Returned tt, w1)
    /\ pool w1 = Some db1
    /\ requests db1 !! next_token (sample_world (Some db_awaiting)) = Some r
    /\ req_type r = stars
    /\ request_value r = js "42".
Proof.
  destruct (stars_value_stored (sample_world (Some db_awaiting)) db_awaiting
              (js "42")) as [[_ H] _].
  - reflexivity.
  - vm_compute. reflexivity.
  - vm_compute. reflexivity.
  - reflexivity.
  - vm_compute. reflexivity.
  - vm_compute. split; [reflexivity|discriminate].
  - exact H.
Defined.

Lemma generateRandomToken_14_witness :
  exists token w',
    generateRandomToken 14 (sample_world None) = (Returned token, w')
    /\ length token = 14%nat
    /\ (forall c, c ∈ token -> c ∈ alphabet).
Proof.
  destruct (generateRandomToken_14 (sample_world None))
    as (token & w' & H1 & H2 & H3 & _).
  - vm_compute. reflexivity.
  - exists token, w'. split; [exact H1|]. split; [exact H2|exact H3].
Defined.

Lemma other_users_change_nothing_witness :
  pool (snd (on_get_link 1 (sample_world (Some db_awaiting))))
  = Some db_awaiting
  /\ pool (snd (on_text 1 (js "42") (sample_world (Some db_awaiting))))
     = Some db_awaiting.
Proof.
  apply (other_users_change_nothing 1 (js "42")
           (sample_world (Some db_awaiting))).
  unfold BOT_OWNER_ID. lia.
Defined.

Lemma invalid_text_reprompts_witness :
  exists msg w',
    on_text BOT_OWNER_ID (js "hello world") (sample_world (Some db_awaiting))
    = (Returned tt, w')
    /\ (msg = invalid_msg \/ msg = not_positive_msg)
    /\ trace w' = [Query SelectState; Reply msg []]
    /\ pool w' = Some db_awaiting.
Proof.
  destruct (invalid_text_reprompts (sample_world (Some db_awaiting))
              db_awaiting (js "hello world"))
    as (msg & w' & H1 & H2 & H3 & H4 & _).
  - reflexivity.
  - vm_compute. reflexivity.
  - reflexivity.
  - left. split; vm_compute; reflexivity.
  - exists msg, w'. split; [exact H1|]. split; [exact H2|].
    split; [exact H3|exact H4].
Defined.

Lemma unknown_token_not_found_witness :
  fst (copy_page (js "AAAAAAAAAAAAAA") (sample_world (Some db_awaiting)))
  = Returned
      {| status := 404;
         body := buildCopyHtml (js "https://borkstudio/c/AAAAAAAAAAAAAA")
                   None true |}.
Proof.
  destruct (unknown_token_not_found (sample_world (Some db_awaiting))
              db_awaiting (js "AAAAAAAAAAAAAA")) as [H _].
  - reflexivity.
  - reflexivity.
  - vm_compute. reflexivity.
  - vm_compute. reflexivity.
  - rewrite H. reflexivity.
Defined.

Lemma degraded_page_witness :
  exists page,
    copy_page (js "AAAAAAAAAAAAAA") (sample_world None)
    = (Returned {| status := 200; body := page |}, sample_world None)
    /\ occurs_in (js "https://borkstudio/c/AAAAAAAAAAAAAA") page.
Proof.
  destruct (degraded_page (sample_world None) (js "AAAAAAAAAAAAAA"))
    as (page & H1 & H2 & _).
  - reflexivity.
  - exists page. split; [exact H1|].
    destruct H2 as (pre & post & ->).
    exists (pre ++ desc_open ++ copy_hint), (div_close ++ post).
    rewrite <- !app_assoc. reflexivity.
Defined.

(** * Further properties *)

(** ** Handlers and failures of the database *)

Lemma with_trace_mk t e s p f r n t0 :
  with_trace t (Build_world e s p f r n t0) = Build_world e s p f r n t.
Proof. reflexivity. Qed.

Lemma with_faults_mk fs e s p f r n t0 :
  with_faults fs (Build_world e s p f r n t0) = Build_world e s p fs r n t0.
Proof. reflexivity. Qed.

Lemma with_pool_mk q e s p f r n t0 :
  with_pool q (Build_world e s p f r n t0) = Build_world e s q f r n t0.
Proof. reflexivity. Qed.

Lemma with_random_pos_mk m e s p f r n t0 :
  with_random_pos m (Build_world e s p f r n t0) = Build_world e s p f r m t0.
Proof. reflexivity. Qed.

(** Equality of two worlds, field by field. *)
Ltac world_eq :=
  unfold bind, console_error, reply, emit, tick;
  repeat match goal with w : world |- _ => destruct w end;
  repeat (cbn [fst snd pool faults trace random_pos random_source
               env_BASE_URL SPONSOR_LINKS] in *;
          rewrite ?with_trace_mk, ?with_faults_mk, ?with_pool_mk,
            ?with_random_pos_mk);
  cbn [length List.map BASE_URL env_BASE_URL];
  rewrite <- ?app_assoc; cbn [app];
  f_equal; f_equal; try assumption; try reflexivity;
  try (by match goal with H : _ = _ :> list bool |- _ => rewrite H end);
  try (by match goal with
          | |- context [drop _ ?l] => destruct l as [|? [|? [|? ?]]]
          end).

Lemma try_catch_returned {A} (body handler : M A) w a w' :
  body w = (Returned a, w') -> try_catch body handler w = (Returned a, w').
Proof. intros H. unfold try_catch. by rewrite H. Qed.

Lemma try_catch_thrown {A} (body handler : M A) w w' :
  body w = (Thrown, w') -> try_catch body handler w = handler w'.
Proof. intros H. unfold try_catch. by rewrite H. Qed.

Lemma try_catch_returns {A} (body handler : M A) :
  returns handler -> returns (try_catch body handler).
Proof.
  intros Hh w. unfold try_catch.
  destruct (body w) as [[a|] w1]; [by eexists _, _|apply Hh].
Qed.

Lemma emit_returns e : returns (emit e).
Proof. intros w. by eexists _, _. Qed.

(** X1: no failure of the database escapes a handler: under every fault
    schedule and in every database, with or without a pool, the three
    bot handlers and the route return; the route always has a
    response. *)
Theorem handlers_always_return (u : telegram_user) (uid : Z)
    (text token : jsstring) :
  returns (on_start u) /\ returns (on_get_link uid)
  /\ returns (on_text uid text) /\ returns (copy_page token).
Proof.
  split; [|split; [|split]]; apply try_catch_returns.
  - apply emit_returns.
  - apply emit_returns.
  - intros w. by eexists _, _.
  - intros w. by eexists _, _.
Qed.

Lemma setUserState_ok uid state w db :
  pool w = Some db -> next_ok w = true -> is_Some (users db !! uid) ->
  setUserState uid state w
  = (Returned tt,
     with_pool (Some (set_user_states (insert uid state) db))
       (tick UpsertState w)).
Proof.
  intros Hp Hok Hu. unfold setUserState. run_monad. rewrite Hp. simpl.
  erewrite pool_query_ok; [done..|].
  unfold sql_upsert_state, references_user.
  by rewrite bool_decide_eq_true_2.
Qed.

Lemma setUserState_fails uid state w db :
  pool w = Some db ->
  next_ok w = false \/ references_user db uid = false ->
  setUserState uid state w = (Thrown, tick UpsertState w).
Proof.
  intros Hp Hbad. unfold setUserState. run_monad. rewrite Hp. simpl.
  destruct (next_ok w) eqn:Hok.
  - destruct Hbad as [?|Hu]; [done|].
    apply pool_query_violation with (db := db); [done|].
    unfold sql_upsert_state. by rewrite Hu.
  - by apply pool_query_fault with (db := db).
Qed.

Lemma upsertUser_ok u w db :
  pool w = Some db -> next_ok w = true ->
  upsertUser u w
  = (Returned tt,
     with_pool (Some (set_users (insert (tg_id u) (user_row u)) db))
       (tick UpsertUser w)).
Proof.
  intros Hp Hok. unfold upsertUser. run_monad. rewrite Hp. simpl.
  by erewrite pool_query_ok.
Qed.

Lemma owner_eqb : (BOT_OWNER_ID =? BOT_OWNER_ID) = true.
Proof. reflexivity. Qed.

Lemma on_get_link_ok w db :
  pool w = Some db -> is_Some (users db !! BOT_OWNER_ID) ->
  next_ok w = true ->
  on_get_link BOT_OWNER_ID w
  = (Returned tt,
     with_trace (trace w ++ [AnswerCbQuery None; Query UpsertState;
                             Reply prompt_msg []])
       (with_pool
          (Some (set_user_states (insert BOT_OWNER_ID awaiting_request) db))
          (with_faults (tail (faults w)) w))).
Proof.
  intros Hp Hu Hok. unfold on_get_link. rewrite owner_eqb. cbn [negb].
  apply try_catch_returned.
  erewrite (bind_returned (emit _)); [|reflexivity].
  erewrite (bind_returned (setUserState _ _)); cycle 1.
  { apply setUserState_ok with (db := db); done. }
  world_eq.
Qed.

(** X2: the get-link action of the registered owner, when the query does
    not fail, is acknowledged, stores the state [awaiting_request] for
    the owner and sends the prompt; the users, the requests and the
    states of other users stay as they are. *)
Theorem get_link_starts_flow (w : world) (db : database) :
  pool w = Some db ->
  references_user db BOT_OWNER_ID = true ->
  next_ok w = true ->
  exists w' db',
    on_get_link BOT_OWNER_ID w = (Returned tt, w')
    /\ pool w' = Some db'
    /\ trace w' = trace w ++ [AnswerCbQuery None; Query UpsertState;
                              Reply prompt_msg []]
    /\ user_states db' !! BOT_OWNER_ID = Some awaiting_request
    /\ (forall uid, uid <> BOT_OWNER_ID ->
          user_states db' !! uid = user_states db !! uid)
    /\ users db' = users db /\ requests db' = requests db.
Proof.
  intros Hp Hu%bool_decide_eq_true Hok.
  eexists _, _. split.
  { unfold on_get_link. rewrite owner_eqb. cbn [negb].
    apply try_catch_returned.
    erewrite (bind_returned (emit _)); [|reflexivity].
    erewrite (bind_returned (setUserState _ _)); cycle 1.
    { apply setUserState_ok with (db := db); done. }
    reflexivity. }
  split; [reflexivity|]. simpl.
  split; [by rewrite <- !app_assoc|].
  split; [by rewrite lookup_insert_eq|].
  split; [|done]. intros uid Hne. by rewrite lookup_insert_ne.
Qed.

(** X3: when the owner has no row in [users] (the foreign key of
    [user_states] fails) or the driver fails, the get-link action is
    acknowledged, the error is logged, no state is stored and no prompt
    is sent. *)
Theorem get_link_without_user (w : world) (db : database) :
  pool w = Some db ->
  next_ok w = false \/ references_user db BOT_OWNER_ID = false ->
  exists w',
    on_get_link BOT_OWNER_ID w = (Returned tt, w')
    /\ pool w' = Some db
    /\ trace w' = trace w ++ [AnswerCbQuery None; Query UpsertState;
                              ConsoleError (js "Error in get_link action:")].
Proof.
  intros Hp Hbad. eexists. split.
  { unfold on_get_link. rewrite owner_eqb. cbn [negb].
    erewrite try_catch_thrown; [reflexivity|].
    erewrite (bind_returned (emit _)); [|reflexivity].
    erewrite (bind_thrown (setUserState _ _)); [reflexivity|].
    by apply setUserState_fails with (db := db). }
  simpl. split; [done|]. by rewrite <- !app_assoc.
Qed.

(** ** The start command *)

Lemma on_start_ok u w db :
  pool w = Some db -> next_ok w = true ->
  on_start u w
  = (Returned tt,
     with_trace
       (trace w
        ++ [Query UpsertUser;
            Reply (if tg_id u =? BOT_OWNER_ID then owner_greeting
                   else sponsor_greeting)
                  (if tg_id u =? BOT_OWNER_ID
                   then [[CallbackButton (js "Получить ссылку")
                                         (js "get_link")]]
                   else buildSponsorKeyboard (SPONSOR_LINKS w))])
       (with_pool (Some (set_users (insert (tg_id u) (user_row u)) db))
          (with_faults (tail (faults w)) w))).
Proof.
  intros Hp Hok. unfold on_start. apply try_catch_returned.
  rewrite (bind_returned _ _ _ _ _ (upsertUser_ok u w db Hp Hok)).
  destruct (tg_id u =? BOT_OWNER_ID).
  - unfold emit, tick. simpl. by rewrite <- !app_assoc.
  - rewrite (bind_returned _ _ _ _ _ (read_run SPONSOR_LINKS _)).
    unfold tick. simpl.
    destruct (SPONSOR_LINKS w); unfold reply, emit; simpl;
      by rewrite <- !app_assoc.
Qed.

(** X4: the start command, when the query does not fail, writes the row of
    the sender into [users] and leaves the other tables as they are;
    the owner is greeted with the get-link button, every other user
    with the sponsor text and one URL button per sponsor link. *)
Theorem start_registers_and_greets (u : telegram_user) (w : world)
    (db : database) :
  pool w = Some db ->
  next_ok w = true ->
  exists w' db',
    on_start u w = (Returned tt, w')
    /\ pool w' = Some db'
    /\ users db' !! tg_id u = Some (user_row u)
    /\ (forall uid, uid <> tg_id u -> users db' !! uid = users db !! uid)
    /\ requests db' = requests db /\ user_states db' = user_states db
    /\ trace w'
       = trace w
         ++ [Query UpsertUser;
             if tg_id u =? BOT_OWNER_ID
             then Reply owner_greeting
                    [[CallbackButton (js "Получить ссылку") (js "get_link")]]
             else Reply sponsor_greeting
                    (buildSponsorKeyboard (SPONSOR_LINKS w))].
Proof.
  intros Hp Hok. rewrite (on_start_ok u w db Hp Hok).
  eexists _, _. split; [reflexivity|]. split; [reflexivity|]. simpl.
  split; [by rewrite lookup_insert_eq|].
  split; [intros uid Hne; by rewrite lookup_insert_ne|].
  split; [done|]. split; [done|].
  by destruct (tg_id u =? BOT_OWNER_ID).
Qed.

(** X5: the upsert of a user is idempotent and the last write wins: two
    start commands of the same Telegram id leave the database that one
    start command with the later metadata leaves. *)
Theorem start_twice_last_wins (u u' : telegram_user) (w : world)
    (db : database) :
  pool w = Some db ->
  calm 2 w = true ->
  tg_id u' = tg_id u ->
  pool (snd (on_start u' (snd (on_start u w))))
  = Some (set_users (insert (tg_id u) (user_row u')) db)
  /\ pool (snd (on_start u (snd (on_start u w))))
     = pool (snd (on_start u w)).
Proof.
  intros Hp Hcalm Hid.
  destruct (calm_S _ UpsertUser _ Hcalm) as [Hok1 Hcalm1].
  destruct (calm_S _ UpsertUser _ Hcalm1) as [Hok2 _].
  rewrite (on_start_ok u w db Hp Hok1). cbn [snd].
  split.
  - erewrite on_start_ok; [|reflexivity|exact Hok2].
    cbn [snd pool with_trace with_pool]. rewrite Hid.
    unfold set_users. simpl. by rewrite insert_insert_eq.
  - erewrite on_start_ok; [|reflexivity|exact Hok2].
    cbn [snd pool with_trace with_pool].
    unfold set_users. simpl. by rewrite insert_insert_eq.
Qed.

(** X6: when the query of the start command fails, the error is logged and
    the sender gets no greeting at all; nothing is written. *)
Theorem start_failure_is_silent (u : telegram_user) (w : world)
    (db : database) :
  pool w = Some db ->
  next_ok w = false ->
  on_start u w
  = (Returned tt,
     with_trace (trace w ++ [Query UpsertUser;
                             ConsoleError (js "Error in /start:")])
       (with_faults (tail (faults w)) w)).
Proof.
  intros Hp Hok. unfold on_start.
  erewrite try_catch_thrown; cycle 1.
  { apply bind_thrown. unfold upsertUser. run_monad. rewrite Hp. simpl.
    by apply pool_query_fault with (db := db). }
  unfold console_error, emit, tick. simpl. by rewrite <- !app_assoc.
Qed.

(** ** Texts outside the flow and failures inside it *)

Lemma or_null_awaiting x :
  or_null x = Some awaiting_request <-> x = Some awaiting_request.
Proof.
  destruct x as [s|]; simpl; [|done].
  destruct s as [|c r]; simpl; [|done].
  split; [done|]. intros [=H].
Qed.

Lemma getUserState_fault uid w db :
  pool w = Some db -> next_ok w = false ->
  getUserState uid w = (Thrown, tick SelectState w).
Proof.
  intros Hp Hok. unfold getUserState, has_pool, bind, read.
  rewrite Hp. simpl. by erewrite pool_query_fault.
Qed.

Lemma getUserState_no_pool uid w :
  pool w = None -> getUserState uid w = (Returned None, w).
Proof.
  intros Hp. unfold getUserState, has_pool, bind, read. by rewrite Hp.
Qed.

(** X7: a text that arrives outside the flow is ignored: when the state
    lookup succeeds and the sender is not the owner, or the stored
    state is not [awaiting_request], the handler issues that one query
    and does nothing else: no reply, no write. *)
Theorem text_outside_flow_ignored (uid : Z) (text : jsstring) (w : world)
    (db : database) :
  pool w = Some db ->
  next_ok w = true ->
  uid <> BOT_OWNER_ID \/ user_states db !! uid <> Some awaiting_request ->
  exists w',
    on_text uid text w = (Returned tt, w')
    /\ pool w' = Some db
    /\ trace w' = trace w ++ [Query SelectState].
Proof.
  intros Hp Hok Hout. exists (tick SelectState w).
  split; [|by split].
  unfold on_text. apply try_catch_returned.
  rewrite (bind_returned _ _ _ _ _ (getUserState_ok uid w db Hp Hok)).
  assert (Hgate : negb (uid =? BOT_OWNER_ID)
                  || negb (bool_decide (or_null (user_states db !! uid)
                                        = Some awaiting_request)) = true).
  { destruct Hout as [Hne|Hst].
    - destruct (Z.eqb_spec uid BOT_OWNER_ID); done.
    - rewrite bool_decide_eq_false_2; [by rewrite orb_true_r|].
      by rewrite or_null_awaiting. }
  by rewrite Hgate.
Qed.

(** X8: when the state lookup fails, the handler logs the error and sends
    the generic error message to the sender, whoever it is and whatever
    the text; nothing is written. *)
Theorem text_lookup_failure (uid : Z) (text : jsstring) (w : world)
    (db : database) :
  pool w = Some db ->
  next_ok w = false ->
  on_text uid text w
  = (Returned tt,
     failed_text_world w (Some db) (random_pos w) [SelectState]).
Proof.
  intros Hp Hok. unfold on_text.
  erewrite try_catch_thrown; cycle 1.
  { apply bind_thrown. by apply getUserState_fault with (db := db). }
  unfold failed_text_world. world_eq.
Qed.

(** X9: without a database the text handler does nothing at all, for every
    sender and text, and the get-link action of the owner still sends
    the prompt although no state is stored: the flow cannot complete. *)
Theorem no_database_no_flow (w : world) :
  pool w = None ->
  on_get_link BOT_OWNER_ID w
  = (Returned tt,
     with_trace (trace w ++ [AnswerCbQuery None; Reply prompt_msg []]) w)
  /\ forall uid text w',
       pool w' = None -> on_text uid text w' = (Returned tt, w').
Proof.
  intros Hp. split.
  - unfold on_get_link. rewrite owner_eqb. cbn [negb].
    apply try_catch_returned.
    erewrite (bind_returned (emit _)); [|reflexivity].
    erewrite (bind_returned (setUserState _ _)); cycle 1.
    { unfold setUserState, has_pool, bind, read. simpl. rewrite Hp.
      reflexivity. }
    world_eq.
  - intros uid text w' Hp'. unfold on_text. apply try_catch_returned.
    rewrite (bind_returned _ _ _ _ _ (getUserState_no_pool uid w' Hp')).
    rewrite (bool_decide_eq_false_2 (None = Some awaiting_request)) by done.
    by rewrite orb_true_r.
Qed.

Lemma valid_gates t :
  isNumber t = true /\ le_zero (parseInt10 t) = false \/ isUrl t = true ->
  negb (isNumber t) && negb (isUrl t) = false
  /\ isNumber t && value_le_zero (if isNumber t then VNum (parseInt10 t)
                                  else VStr t) = false.
Proof.
  intros Hvalid. split.
  - destruct Hvalid as [[-> _]| ->]; [done|]. by rewrite andb_false_r.
  - destruct Hvalid as [[-> H]|H]; [done|].
    destruct (isNumber t) eqn:Hn; [|done].
    apply number_not_url in Hn. congruence.
Qed.

Lemma saveRequest_fault token uid type value link w db :
  pool w = Some db -> next_ok w = false ->
  saveRequest token uid type value link w = (Thrown, tick UpsertRequest w).
Proof.
  intros Hp Hok. unfold saveRequest, has_pool, bind, read.
  rewrite Hp. simpl. by erewrite pool_query_fault.
Qed.

Lemma clearUserState_fault uid w db :
  pool w = Some db -> next_ok w = false ->
  clearUserState uid w = (Thrown, tick DeleteState w).
Proof.
  intros Hp Hok. unfold clearUserState, has_pool, bind, read.
  rewrite Hp. simpl. by erewrite pool_query_fault.
Qed.

(** X10: when the insert of the request fails, the owner gets the generic
    error message; no request is stored and the state stays
    [awaiting_request], so the owner can send the text again. *)
Theorem save_failure_keeps_flow_open (w : world) (db : database)
    (text : jsstring) :
  pool w = Some db ->
  user_states db !! BOT_OWNER_ID = Some awaiting_request ->
  take 2 (faults w) = [false; true] ->
  isNumber (trim text) = true /\ le_zero (parseInt10 (trim text)) = false
  \/ isUrl (trim text) = true ->
  on_text BOT_OWNER_ID text w
  = (Returned tt,
     failed_text_world w (Some db) (14 + random_pos w)
       [SelectState; UpsertRequest]).
Proof.
  intros Hp Hst Hf Hvalid.
  destruct (faults w) as [|[|] [|[|] fs]] eqn:Hfaults; try discriminate.
  assert (Hok1 : next_ok w = true) by (unfold next_ok; by rewrite Hfaults).
  destruct (valid_gates _ Hvalid) as [Hcls Hpos].
  unfold on_text. erewrite try_catch_thrown; cycle 1.
  { rewrite (bind_returned _ _ _ _ _ (getUserState_ok _ _ _ Hp Hok1)).
    rewrite Hst, owner_gate, Hcls, Hpos.
    rewrite (bind_returned _ _ _ _ _ (generateRandomToken_run _ _)).
    rewrite (bind_returned _ _ _ _ _ (read_run BASE_URL _)).
    apply bind_thrown. apply saveRequest_fault with (db := db); [done|].
    unfold next_ok, tick. simpl. by rewrite Hfaults. }
  unfold failed_text_world. world_eq.
Qed.

(** X11: when the request is stored and the delete of the state then fails,
    the request stays stored under its token, the state stays
    [awaiting_request], and the owner gets the generic error message
    instead of the link. *)
Theorem delete_failure_hides_link (w : world) (db : database)
    (text : jsstring) :
  pool w = Some db ->
  user_states db !! BOT_OWNER_ID = Some awaiting_request ->
  references_user db BOT_OWNER_ID = true ->
  take 3 (faults w) = [false; false; true] ->
  isNumber (trim text) = true /\ le_zero (parseInt10 (trim text)) = false
  \/ isUrl (trim text) = true ->
  let db' := set_requests
               (insert (next_token w) (accepted_request w (trim text))) db in
  on_text BOT_OWNER_ID text w
  = (Returned tt,
     failed_text_world w (Some db') (14 + random_pos w)
       [SelectState; UpsertRequest; DeleteState])
  /\ requests db' !! next_token w = Some (accepted_request w (trim text))
  /\ user_states db' !! BOT_OWNER_ID = Some awaiting_request.
Proof.
  intros Hp Hst Hu%bool_decide_eq_true Hf Hvalid db'.
  split; [|split; [by apply lookup_insert_eq|exact Hst]].
  destruct (faults w) as [|[|] [|[|] [|[|] fs]]] eqn:Hfaults;
    try discriminate.
  assert (Hok1 : next_ok w = true) by (unfold next_ok; by rewrite Hfaults).
  destruct (valid_gates _ Hvalid) as [Hcls Hpos].
  unfold on_text. erewrite try_catch_thrown; cycle 1.
  { rewrite (bind_returned _ _ _ _ _ (getUserState_ok _ _ _ Hp Hok1)).
    rewrite Hst, owner_gate, Hcls, Hpos.
    rewrite (bind_returned _ _ _ _ _ (generateRandomToken_run _ _)).
    rewrite (bind_returned _ _ _ _ _ (read_run BASE_URL _)).
    erewrite (bind_returned (saveRequest _ _ _ _ _)); cycle 1.
    { apply saveRequest_ok with (db := db); [done| |done].
      unfold next_ok, tick. simpl. by rewrite Hfaults. }
    apply bind_thrown. eapply clearUserState_fault; [reflexivity|].
    unfold next_ok, tick. simpl. by rewrite Hfaults. }
  unfold failed_text_world, db', accepted_request, next_token.
  world_eq.
Qed.

(** ** The flow as a whole *)

Lemma on_text_ignored uid text w db :
  pool w = Some db -> next_ok w = true ->
  uid <> BOT_OWNER_ID \/ user_states db !! uid <> Some awaiting_request ->
  on_text uid text w = (Returned tt, tick SelectState w).
Proof.
  intros Hp Hok Hout. unfold on_text. apply try_catch_returned.
  rewrite (bind_returned _ _ _ _ _ (getUserState_ok uid w db Hp Hok)).
  assert (Hgate : negb (uid =? BOT_OWNER_ID)
                  || negb (bool_decide (or_null (user_states db !! uid)
                                        = Some awaiting_request)) = true).
  { destruct Hout as [Hne|Hst].
    - destruct (Z.eqb_spec uid BOT_OWNER_ID); done.
    - rewrite bool_decide_eq_false_2; [by rewrite orb_true_r|].
      by rewrite or_null_awaiting. }
  by rewrite Hgate.
Qed.

(** X12: the flow is one-shot: after an accepted text the state of the owner
    is gone, and the next text of the owner, valid or not, is ignored:
    no second request, no reply. *)
Theorem flow_is_one_shot (w : world) (db : database) (text text' : jsstring) :
  pool w = Some db ->
  user_states db !! BOT_OWNER_ID = Some awaiting_request ->
  references_user db BOT_OWNER_ID = true ->
  calm 4 w = true ->
  isNumber (trim text) = true /\ le_zero (parseInt10 (trim text)) = false
  \/ isUrl (trim text) = true ->
  let w1 := snd (on_text BOT_OWNER_ID text w) in
  on_text BOT_OWNER_ID text' w1 = (Returned tt, tick SelectState w1)
  /\ pool (tick SelectState w1) = pool w1
  /\ trace (tick SelectState w1) = trace w1 ++ [Query SelectState].
Proof.
  intros Hp Hst Hu%bool_decide_eq_true Hcalm Hvalid w1.
  destruct (calm_4 _ Hcalm) as [Hcalm3 Hfourth].
  unfold w1. rewrite (on_text_accepted w db text Hp Hst Hu Hcalm3 Hvalid).
  cbn [snd]. split; [|done].
  eapply on_text_ignored; [reflexivity| |].
  - unfold next_ok, accepted_world. simpl.
    destruct (faults w) as [|? [|? [|? [|[|] ?]]]]; done.
  - right. simpl. by rewrite lookup_delete_eq.
Qed.

(** X13: the accepted flow writes one row of [requests], the one under the
    drawn token: a request that was stored under that token before is
    replaced, every other request stays; of [user_states] only the row
    of the owner is deleted; [users] stays as it is. *)
Theorem accepted_flow_frame (w : world) (db : database) (text : jsstring) :
  pool w = Some db ->
  user_states db !! BOT_OWNER_ID = Some awaiting_request ->
  references_user db BOT_OWNER_ID = true ->
  calm 3 w = true ->
  isNumber (trim text) = true /\ le_zero (parseInt10 (trim text)) = false
  \/ isUrl (trim text) = true ->
  exists db1,
    pool (snd (on_text BOT_OWNER_ID text w)) = Some db1
    /\ requests db1 !! next_token w = Some (accepted_request w (trim text))
    /\ (forall token, token <> next_token w ->
          requests db1 !! token = requests db !! token)
    /\ user_states db1 !! BOT_OWNER_ID = None
    /\ (forall uid, uid <> BOT_OWNER_ID ->
          user_states db1 !! uid = user_states db !! uid)
    /\ users db1 = users db.
Proof.
  intros Hp Hst Hu%bool_decide_eq_true Hcalm Hvalid.
  rewrite (on_text_accepted w db text Hp Hst Hu Hcalm Hvalid).
  eexists. split; [reflexivity|]. simpl.
  split; [by rewrite lookup_insert_eq|].
  split; [intros token Hne; by rewrite lookup_insert_ne|].
  split; [by rewrite lookup_delete_eq|].
  split; [intros uid Hne; by rewrite lookup_delete_ne|done].
Qed.

(** X14: the route only reads: whatever the token, the fault schedule and
    the database, the tables are the same after a request. *)
Theorem copy_page_reads_only (token : jsstring) (w : world) :
  pool (snd (copy_page token w)) = pool w.
Proof.
  destruct (pool w) as [db|] eqn:Hp.
  - destruct (next_ok w) eqn:Hok.
    + destruct (has_nul token) eqn:Hnul.
      * by rewrite (copy_page_rejected _ _ _ Hp Hnul).
      * by rewrite (copy_page_lookup _ _ _ Hp Hok Hnul).
    + by rewrite (copy_page_fault _ _ _ Hp Hok).
  - by rewrite (copy_page_degraded _ _ Hp).
Qed.

Lemma calm_after n k w w' :
  calm (n + k) w = true -> faults w' = drop n (faults w) ->
  calm k w' = true /\ (k <> 0%nat -> next_ok w' = true).
Proof.
  unfold calm, next_ok. intros H ->. revert H.
  generalize (faults w) as l. induction n as [|n IH]; intros l H.
  - rewrite drop_0. simpl in H. split; [done|]. intros Hk.
    destruct k as [|k]; [done|]. by destruct l as [|[|] ?].
  - destruct l as [|a l]; simpl in *.
    + rewrite take_nil. split; [done|]. done.
    + apply andb_true_iff in H as [_ H]. by apply IH.
Qed.

(** X15: the whole flow from any database: the owner sends the start
    command, triggers the get-link action and sends a text whose
    trimmed form is a digit string of a value between 1 and [2^53] or a
    URL; when none of the six queries fails, the start command has
    registered the owner, so that the state and the request pass their
    foreign keys, the owner receives the greeting, the prompt and the
    link, and the route then resolves the token of that link to a page
    with status 200 whose value block holds the decimal numeral of the
    count that was sent followed by the unit label, or the URL text
    itself. *)
Theorem whole_flow_from_start (u : telegram_user) (w : world)
    (db : database) (text : jsstring) :
  pool w = Some db ->
  tg_id u = BOT_OWNER_ID ->
  calm 6 w = true ->
  isNumber (trim text) = true /\ 0 < digits_value (trim text) <= 2 ^ 53
  \/ isUrl (trim text) = true ->
  let w1 := snd (on_start u w) in
  let w2 := snd (on_get_link BOT_OWNER_ID w1) in
  let w3 := snd (on_text BOT_OWNER_ID text w2) in
  let link := BASE_URL w ++ js "/c/" ++ next_token w in
  trace w3
  = trace w
    ++ [Query UpsertUser;
        Reply owner_greeting
          [[CallbackButton (js "Получить ссылку") (js "get_link")]];
        AnswerCbQuery None; Query UpsertState; Reply prompt_msg [];
        Query SelectState; Query UpsertRequest; Query DeleteState;
        Reply (done_msg link) []]
  /\ exists page,
       fst (copy_page (next_token w) w3)
       = Returned {| status := 200; body := page |}
       /\ occurs_in
            (value_open
             ++ (if isNumber (trim text)
                 then decimal (digits_value (trim text)) ++ js " звёзд"
                 else trim text)
             ++ div_close) page.
Proof.
  intros Hp Hid Hcalm Hsent w1 w2 w3 link.
  assert (Hvalid : isNumber (trim text) = true
                   /\ le_zero (parseInt10 (trim text)) = false
                   \/ isUrl (trim text) = true).
  { destruct Hsent as [[Hn Hv]|Hurl]; [left|by right].
    split; [done|]. by destruct (count_exact _ Hn Hv). }
  destruct (calm_after 0 6 w w Hcalm eq_refl) as [_ Hok0].
  assert (Hw1 : on_start u w = (Returned tt, w1)).
  { unfold w1. by rewrite (on_start_ok u w db Hp (Hok0 ltac:(done))). }
  rewrite (on_start_ok u w db Hp (Hok0 ltac:(done))) in Hw1.
  injection Hw1 as Hw1. rewrite Hid, owner_eqb in Hw1.
  set (db1 := set_users (insert BOT_OWNER_ID (user_row u)) db) in *.
  assert (Hp1 : pool w1 = Some db1) by (by rewrite <- Hw1).
  assert (Hf1 : faults w1 = drop 1 (faults w)).
  { rewrite <- Hw1. simpl. by destruct (faults w). }
  destruct (calm_after 1 5 w w1 Hcalm Hf1) as [_ Hok1].
  assert (Hu1 : is_Some (users db1 !! BOT_OWNER_ID)).
  { unfold db1. simpl. rewrite lookup_insert_eq. by eexists. }
  assert (Hw2 : on_get_link BOT_OWNER_ID w1 = (Returned tt, w2)).
  { unfold w2. by rewrite (on_get_link_ok w1 db1 Hp1 Hu1 (Hok1 ltac:(done))). }
  rewrite (on_get_link_ok w1 db1 Hp1 Hu1 (Hok1 ltac:(done))) in Hw2.
  injection Hw2 as Hw2.
  set (db2 := set_user_states (insert BOT_OWNER_ID awaiting_request) db1)
    in *.
  assert (Hp2 : pool w2 = Some db2) by (by rewrite <- Hw2).
  assert (Hf2 : faults w2 = drop 2 (faults w)).
  { rewrite <- Hw2. simpl. rewrite Hf1. by destruct (faults w) as [|? [|? ?]]. }
  destruct (calm_after 2 4 w w2 Hcalm Hf2) as [Hcalm2 _].
  destruct (calm_4 _ Hcalm2) as [Hcalm3 Hfourth].
  assert (Hst2 : user_states db2 !! BOT_OWNER_ID = Some awaiting_request).
  { unfold db2. simpl. by rewrite lookup_insert_eq. }
  assert (Hu2 : is_Some (users db2 !! BOT_OWNER_ID)) by exact Hu1.
  assert (Hsame : next_token w2 = next_token w /\ BASE_URL w2 = BASE_URL w
                  /\ trace w2
                     = trace w
                       ++ [Query UpsertUser;
                           Reply owner_greeting
                             [[CallbackButton (js "Получить ссылку")
                                              (js "get_link")]];
                           AnswerCbQuery None; Query UpsertState;
                           Reply prompt_msg []]).
  { rewrite <- Hw2, <- Hw1. split; [done|]. split; [done|].
    simpl. by rewrite <- !app_assoc. }
  destruct Hsame as (Htok & Hbase & Htrace).
  unfold w3.
  rewrite (on_text_accepted w2 db2 text Hp2 Hst2 Hu2 Hcalm3 Hvalid).
  cbn [snd]. split.
  - unfold accepted_world. cbn [trace]. rewrite Htrace, Htok, Hbase.
    by rewrite <- !app_assoc.
  - eexists. rewrite <- Htok. split.
    + by rewrite (accepted_then_resolved w2 db2 (trim text) Hfourth).
    + pose proof (accepted_page_shows_value w2 (trim text)
                    (BASE_URL w2 ++ js "/c/" ++ next_token w2) Hvalid)
        as Hshow.
      destruct (isNumber (trim text)) eqn:Hn; [|exact Hshow].
      destruct Hsent as [[_ Hv]|Hurl].
      * destruct (count_exact _ Hn Hv) as [_ <-]. exact Hshow.
      * apply number_not_url in Hn. congruence.
Qed.

(** ** Counts of stars that are not positive *)

Lemma round53_pos n : 0 < n -> 0 < round53 n.
Proof.
  intros Hn. unfold round53.
  destruct (Z.ltb_spec n (2 ^ 53)) as [|Hge]; [done|].
  assert (Hl : 53 <= Z.log2 n) by (apply Z.log2_le_pow2; lia).
  set (e := Z.log2 n - 52).
  assert (Hpe : 0 < 2 ^ e) by (apply Z.pow_pos_nonneg; lia).
  assert (Hle : 2 ^ e <= n).
  { transitivity (2 ^ Z.log2 n); [apply Z.pow_le_mono_r; lia|].
    apply Z.log2_spec. lia. }
  assert (Hq : 1 <= n / 2 ^ e).
  { apply Z.div_le_lower_bound; lia. }
  repeat case_match; nia.
Qed.

Lemma number_of_nat_le_zero n :
  0 <= n -> le_zero (number_of_nat false n) = bool_decide (n = 0).
Proof.
  intros Hn. unfold number_of_nat.
  destruct (Z.eq_dec n 0) as [->|Hne]; [done|].
  pose proof (round53_pos n ltac:(lia)) as Hpos.
  rewrite bool_decide_eq_false_2 by done.
  case_match; simpl; [done|]. lia.
Qed.

Lemma digits_value_zero ds acc :
  forallb is_digit ds = true -> 0 <= acc ->
  0 <= fold_left (fun a c => a * 10 + (c - 48)) ds acc
  /\ (fold_left (fun a c => a * 10 + (c - 48)) ds acc = 0
      <-> acc = 0 /\ forallb (Z.eqb 48) ds = true).
Proof.
  revert acc. induction ds as [|c r IH]; intros acc Hall Hacc;
    cbn [fold_left forallb].
  - split; [done|]. tauto.
  - cbn [forallb] in Hall. apply andb_true_iff in Hall as [Hc Hr].
    assert (Hd : 48 <= c <= 57) by (unfold is_digit in Hc; lia).
    destruct (IH (acc * 10 + (c - 48)) Hr ltac:(lia)) as [Hge Hiff].
    split; [done|]. rewrite Hiff, andb_true_iff, Z.eqb_eq. lia.
Qed.

(** X16: a digit string is rejected as not positive exactly when all its
    digits are zeros; every other digit string passes the check,
    however long it is (beyond the largest double its number is
    infinity, which is greater than zero). *)
Theorem not_positive_iff_zeros (t : jsstring) :
  isNumber t = true ->
  le_zero (parseInt10 t) = true <-> forallb (Z.eqb 48) t = true.
Proof.
  intros Hn. rewrite (parseInt10_number t Hn).
  apply isNumber_spec in Hn as [_ Hall].
  destruct (digits_value_zero t 0 Hall ltac:(done)) as [Hge Hiff].
  fold (digits_value t) in Hge, Hiff.
  rewrite number_of_nat_le_zero by done.
  rewrite bool_decide_eq_true, Hiff. tauto.
Qed.

(** ** The token generator at any length *)

(** X17: for every length [len] the generator draws exactly [len] values of
    [Math.random()] and touches nothing else; the token consists of
    characters of the alphabet and has at most [len] of them, exactly
    [len] when the values drawn are doubles in [0, 1). *)
Theorem generateRandomToken_any_length (len : nat) (w : world) :
  exists token,
    generateRandomToken len w
    = (Returned token, with_random_pos (len + random_pos w) w)
    /\ (length token <= len)%nat
    /\ (forall c, c ∈ token -> is_alnum c = true)
    /\ (randoms_ok len w = true -> length token = len).
Proof.
  rewrite generateRandomToken_run. eexists. split; [done|].
  destruct (token_chars_any (random_source w) (random_pos w) len)
    as [Hlen Hall].
  split; [done|]. split.
  - intros c Hc. apply alphabet_alnum.
    by apply (proj1 (Forall_forall _ _) Hall).
  - intros Hr.
    by destruct (token_chars_shape (random_source w) (random_pos w) len
                   (randoms_ok_spec len w Hr)).
Qed.

(** ** The sponsor keyboard *)

Lemma rows_of_two_spec {A} (l : list A) :
  concat (rows_of_two l) = l
  /\ Forall (fun row => (1 <= length row <= 2)%nat) (rows_of_two l)
  /\ (2 * length (rows_of_two l) = length l + length l mod 2)%nat.
Proof.
  assert (H : forall n (l : list A), (length l <= n)%nat ->
    concat (rows_of_two l) = l
    /\ Forall (fun row => (1 <= length row <= 2)%nat) (rows_of_two l)
    /\ (2 * length (rows_of_two l) = length l + length l mod 2)%nat).
  { clear l. induction n as [|n IH]; intros l Hl.
    - destruct l; [|simpl in Hl; lia].
      split; [done|]. split; [constructor|done].
    - destruct l as [|a [|b r]].
      + split; [done|]. split; [constructor|done].
      + split; [done|]. split; [|done].
        constructor; [simpl; lia|constructor].
      + destruct (IH r) as (Hc & Hf & Hn); [simpl in Hl; lia|].
        cbn [rows_of_two concat length app]. rewrite Hc.
        split; [done|]. split; [constructor; [simpl; lia|done]|].
        replace (S (S (length r))) with (length r + 1 * 2)%nat by lia.
        rewrite Nat.Div0.mod_add. lia. }
  by apply (H (length l)).
Qed.

(** Row [j] is the slice of the list from [2 * j] to [2 * j + 2]. *)
Lemma rows_of_two_lookup {A} (l : list A) (j : nat) :
  rows_of_two l !! j
  = if (2 * j <? length l)%nat then Some (take 2 (drop (2 * j) l)) else None.
Proof.
  revert l. induction j as [|j IH]; intros [|a [|b r]]; try done.
  replace (2 * S j)%nat with (S (S (2 * j))) by lia.
  cbn [rows_of_two lookup list_lookup length drop]. rewrite IH.
  destruct (Nat.ltb_spec (2 * j) (length r)),
           (Nat.ltb_spec (S (S (2 * j))) (S (S (length r))));
    done || lia.
Qed.

(** X18: the sponsor keyboard has one URL button per link, in the order of
    the links: button [i] opens link [i] and is labelled with the
    number [i + 1]; row [j] of the keyboard is the slice of the buttons
    from index [2 * j] up to index [2 * j + 2], and there is a row [j]
    exactly when [2 * j] is below the number of links: so every row but
    the last holds two buttons, the last row holds one when the number
    of links is odd, and no row is empty. *)
Theorem sponsor_keyboard_rows (links : list jsstring) :
  concat (buildSponsorKeyboard links) = imap sponsor_button links
  /\ Forall (fun row => (1 <= length row <= 2)%nat)
            (buildSponsorKeyboard links)
  /\ (2 * length (buildSponsorKeyboard links)
      = length links + length links mod 2)%nat
  /\ (forall i l, links !! i = Some l ->
        concat (buildSponsorKeyboard links) !! i
        = Some (UrlButton (js "Спонсор " ++ decimal (Z.of_nat i + 1)) l))
  /\ (forall j,
        buildSponsorKeyboard links !! j
        = if (2 * j <? length links)%nat
          then Some (take 2 (drop (2 * j) (imap sponsor_button links)))
          else None)
  /\ (forall j row,
        buildSponsorKeyboard links !! j = Some row ->
        (S j < length (buildSponsorKeyboard links))%nat ->
        length row = 2%nat).
Proof.
  unfold buildSponsorKeyboard.
  destruct (rows_of_two_spec (imap sponsor_button links)) as (Hc & Hf & Hn).
  fold sponsor_button. rewrite length_imap in Hn.
  split; [done|]. split; [done|]. split; [done|].
  split. { intros i l Hl. rewrite Hc, list_lookup_imap, Hl. done. }
  split.
  { intros j. rewrite rows_of_two_lookup. by rewrite length_imap. }
  intros j row Hrow Hj. rewrite rows_of_two_lookup, length_imap in Hrow.
  destruct (Nat.ltb_spec (2 * j) (length links)); [|done].
  injection Hrow as <-.
  rewrite length_take, length_drop, length_imap.
  pose proof (Nat.mod_upper_bound (length links) 2). lia.
Qed.

(** ** The string literal of the copy script *)

Lemma json_plain_quote c r :
  json_plain c = true -> quote_json (c :: r) = c :: quote_json r.
Proof.
  unfold json_plain. intros H.
  apply andb_true_iff in H as [H Hlow].
  apply andb_true_iff in H as [H Hhigh].
  apply negb_true_iff in Hlow, Hhigh.
  cbn [quote_json]. rewrite Hlow, Hhigh.
  repeat (case_match; [lia|]). done.
Qed.

Lemma quote_json_plain s :
  forallb json_plain s = true -> quote_json s = s.
Proof.
  intros Hs. induction s as [|c r IH]; [done|].
  simpl in Hs. apply andb_true_iff in Hs as [Hc Hr].
  rewrite json_plain_quote by done. by rewrite IH.
Qed.

(** [JSON.stringify] copies a string of plain code units as it is
    between two double quotes: angle brackets, slashes and ampersands
    reach the script of the page unescaped. *)
Theorem stringify_plain_verbatim (s : jsstring) :
  forallb json_plain s = true ->
  JSON_stringify s = dq ++ s ++ dq.
Proof.
  intros Hs. unfold JSON_stringify. by rewrite quote_json_plain.
Qed.

(** ** The URL rule *)

Lemma plus_loop_spec ic cl s k :
  plus_loop ic cl s k = true <->
  exists a b, s = a ++ b /\ a <> []
              /\ forallb (class_matches ic cl) a = true /\ k b = true.
Proof.
  split.
  - induction s as [|c r IH]; cbn [plus_loop]; [done|].
    intros [Hc Hr]%andb_true_iff. apply orb_true_iff in Hr as [Hr|Hr].
    + destruct (IH Hr) as (a & b & -> & _ & Ha & Hk).
      exists (c :: a), b. cbn [forallb]. by rewrite Hc, Ha.
    + exists [c], r. cbn [forallb]. by rewrite Hc.
  - intros (a & b & -> & Hne & Ha & Hk).
    induction a as [|c a IH]; [done|].
    cbn [forallb] in Ha. apply andb_true_iff in Ha as [Hc Ha].
    cbn [app plus_loop]. rewrite Hc. cbn [andb].
    destruct a as [|d a']; [cbn [app]; by rewrite Hk, orb_true_r|].
    by rewrite IH.
Qed.

Lemma rmatch_lit_spec l r s k :
  rmatch true (RLit l r) s k = true <->
  exists p s', s = p ++ s'
               /\ List.map canonicalize p = List.map canonicalize l
               /\ rmatch true r s' k = true.
Proof.
  revert s. induction l as [|a l IH]; intros s.
  - cbn [RLit]. split.
    + intros H. by exists [], s.
    + intros (p & s' & -> & Hp & H). by destruct p.
  - rewrite rmatch_lit_cons. destruct s as [|c s].
    + split; [done|]. intros (p & s' & Hs & Hp & _).
      destruct p; [done|]. done.
    + rewrite andb_true_iff, IH. unfold char_matches. rewrite Z.eqb_eq.
      split.
      * intros (Hc & p & s' & -> & Hp & H). exists (c :: p), s'.
        cbn [app List.map]. by rewrite Hp, Hc.
      * intros (p & s' & Hs & Hp & H). destruct p as [|c' p]; [done|].
        cbn [app List.map] in *. injection Hs as -> ->.
        injection Hp as Hc Hp. split; [done|]. by exists p, s'.
Qed.

Lemma canonicalize_punct a c :
  is_alpha a = false -> canonicalize c = canonicalize a -> c = a.
Proof. unfold is_alpha, canonicalize. intros Ha. repeat case_match; lia. Qed.

Lemma canonicalize_puncts l p :
  forallb (fun a => negb (is_alpha a)) l = true ->
  List.map canonicalize p = List.map canonicalize l -> p = l.
Proof.
  revert p. induction l as [|a l IH]; intros p Hl Hp.
  - by destruct p.
  - destruct p as [|c p]; [done|]. cbn [List.map forallb] in *.
    apply andb_true_iff in Hl as [Ha%negb_true_iff Hl].
    injection Hp as Hc Hp. f_equal; [by apply canonicalize_punct|].
    by apply IH.
Qed.

Lemma class_punct l c :
  forallb (fun a => negb (is_alpha a)) l = true ->
  existsb (fun it => item_matches true it c) (List.map CChar l)
  = existsb (Z.eqb c) l.
Proof.
  induction l as [|a l IH]; [done|]. cbn [List.map forallb existsb].
  intros [Ha%negb_true_iff Hl]%andb_true_iff. rewrite IH by done.
  f_equal. cbn [item_matches]. unfold char_matches.
  destruct (Z.eqb_spec c a) as [->|Hne]; [apply Z.eqb_refl|].
  apply Z.eqb_neq. intros Heq. apply Hne.
  by apply canonicalize_punct.
Qed.

Lemma host_class c :
  class_matches true (CWord :: chars ".-") c = host_char c.
Proof.
  unfold class_matches, chars. cbn [existsb item_matches].
  rewrite class_punct by (by vm_compute).
  assert (E : js ".-" = [46; 45]) by (vm_compute; reflexivity).
  rewrite E. unfold host_char. cbn [existsb].
  rewrite orb_false_r, (Z.eqb_sym c 46), (Z.eqb_sym c 45).
  by rewrite orb_assoc.
Qed.

Lemma path_class c :
  class_matches true (CWord :: chars "-._~:/?#[]@!$&'()*+,;=.") c
  = path_char c.
Proof.
  unfold class_matches, chars. cbn [existsb item_matches].
  rewrite class_punct by (by vm_compute).
  unfold path_char.
  assert (E : js "-._~:/?#[]@!$&'()*+,;=." = path_punct ++ [46])
    by (vm_compute; reflexivity).
  rewrite E, existsb_app. cbn [existsb]. rewrite orb_false_r.
  destruct (Z.eqb_spec c 46) as [->|_]; [|by rewrite orb_false_r].
  rewrite orb_true_r.
  replace (existsb (Z.eqb 46) path_punct) with true
    by (vm_compute; reflexivity).
  done.
Qed.

Lemma forallb_ext_eq {A} (f g : A -> bool) l :
  (forall x, f x = g x) -> forallb f l = forallb g l.
Proof. intros H. induction l; simpl; [done|]. by rewrite H, IHl. Qed.

Lemma at_end_nil s : at_end s = true <-> s = [].
Proof. by destruct s. Qed.

(** What may follow the host: nothing, or a slash and a path. *)
Lemma url_rest_spec b :
  rmatch true (ROpt (RSeq (RChar 47)
                          (RPlus (CWord :: chars "-._~:/?#[]@!$&'()*+,;=."))))
         b at_end = true <->
  b = [] \/ exists path, b = 47 :: path /\ path <> []
                         /\ forallb path_char path = true.
Proof.
  cbn [rmatch]. rewrite orb_true_iff, at_end_nil. split.
  - intros [H|H]; [|by left]. right. destruct b as [|c b]; [done|].
    apply andb_true_iff in H as [Hc H]. unfold char_matches in Hc.
    apply Z.eqb_eq in Hc. symmetry in Hc.
    apply (canonicalize_punct 47) in Hc; [|done]. subst c.
    apply plus_loop_spec in H as (a & b' & -> & Hne & Ha & ->%at_end_nil).
    rewrite app_nil_r. exists a. split; [done|]. split; [done|].
    by rewrite <- (forallb_ext_eq _ _ a path_class).
  - intros [->|(path & -> & Hne & Hp)]; [by right|]. left.
    unfold char_matches. rewrite Z.eqb_refl. cbn [andb].
    apply plus_loop_spec.
    exists path, []. rewrite app_nil_r. split; [done|]. split; [done|].
    split; [|done]. by rewrite (forallb_ext_eq _ _ path path_class).
Qed.

(** The host and what follows it. *)
Lemma url_host_spec s :
  rmatch true
    (RSeq (RPlus (CWord :: chars ".-"))
          (ROpt (RSeq (RChar 47)
                      (RPlus (CWord :: chars "-._~:/?#[]@!$&'()*+,;=.")))))
    s at_end = true <->
  exists host rest,
    s = host ++ rest /\ host <> [] /\ forallb host_char host = true
    /\ (rest = []
        \/ exists path, rest = 47 :: path /\ path <> []
                        /\ forallb path_char path = true).
Proof.
  cbn [rmatch]. rewrite plus_loop_spec. split.
  - intros (a & b & -> & Hne & Ha & Hk). exists a, b.
    split; [done|]. split; [done|].
    split; [by rewrite <- (forallb_ext_eq _ _ a host_class)|].
    by apply url_rest_spec.
  - intros (host & rest & -> & Hne & Hh & Hr). exists host, rest.
    split; [done|]. split; [done|].
    split; [by rewrite (forallb_ext_eq _ _ host host_class)|].
    by apply url_rest_spec.
Qed.

(** X19: the URL rule accepts exactly the texts of the shape
    [scheme://host] or [scheme://host/path]: the scheme is [http] or
    [https] in any mix of cases, the host is one or more word
    characters, dots and hyphens, and the path, when there is one, is
    one or more characters of the listed set.  So a port, a query
    without a path, a bare trailing slash or a character outside ASCII
    make a text fail the rule. *)
Theorem isUrl_iff_shape (s : jsstring) : isUrl s = true <-> url_shape s.
Proof.
  unfold isUrl, regex_test, url_re, url_shape.
  rewrite rmatch_lit_spec. split.
  - intros (p & s1 & -> & Hp & H). cbn [rmatch] in H.
    apply orb_true_iff in H as [H|H].
    + destruct s1 as [|c s2]; [done|].
      apply andb_true_iff in H as [Hc H]. unfold char_matches in Hc.
      apply Z.eqb_eq in Hc.
      apply rmatch_lit_spec in H as (q & s3 & -> & Hq & H).
      apply canonicalize_puncts in Hq; [|by vm_compute]. subst q.
      apply url_host_spec in H as (host & rest & -> & Hrest).
      exists (p ++ [c]), host, rest. rewrite <- !app_assoc.
      split; [done|]. split; [|done]. right.
      rewrite map_app, Hp. cbn [List.map]. rewrite <- Hc. by vm_compute.
    + apply rmatch_lit_spec in H as (q & s3 & -> & Hq & H).
      apply canonicalize_puncts in Hq; [|by vm_compute]. subst q.
      apply url_host_spec in H as (host & rest & -> & Hrest).
      exists p, host, rest. split; [done|]. split; [|done]. left.
      rewrite Hp. by vm_compute.
  - intros (scheme & host & rest & -> & Hscheme & Hrest).
    assert (Htail : rmatch true
              (RLit (js "://")
                 (RSeq (RPlus (CWord :: chars ".-"))
                    (ROpt (RSeq (RChar 47)
                       (RPlus (CWord :: chars "-._~:/?#[]@!$&'()*+,;=."))))))
              (js "://" ++ host ++ rest) at_end = true).
    { apply rmatch_lit_spec. exists (js "://"), (host ++ rest).
      split; [done|]. split; [done|]. apply url_host_spec.
      by exists host, rest. }
    destruct Hscheme as [Hs|Hs].
    + exists scheme, (js "://" ++ host ++ rest).
      split; [done|]. split; [rewrite Hs; by vm_compute|].
      cbn [rmatch]. rewrite Htail. by rewrite orb_true_r.
    + assert (Hne : scheme <> []).
      { intros ->. vm_compute in Hs. discriminate. }
      destruct (exists_last Hne) as (p & c & ->).
      exists p, (c :: js "://" ++ host ++ rest). rewrite <- app_assoc.
      split; [done|]. rewrite map_app in Hs. cbn [List.map] in Hs.
      assert (Hs' : List.map canonicalize p ++ [canonicalize c]
                    = js "HTTP" ++ [83]) by (rewrite Hs; by vm_compute).
      apply app_inj_tail in Hs' as [Hp Hc].
      split; [rewrite Hp; by vm_compute|].
      cbn [rmatch]. unfold char_matches. rewrite Hc.
      change (canonicalize 115) with 83. rewrite Z.eqb_refl.
      cbn [andb]. by rewrite Htail.
Qed.

(** ** The parser of sponsor links *)

Lemma startsWith_spec p s :
  startsWith p s = true <-> exists r, s = p ++ r.
Proof.
  revert s. induction p as [|a p IH]; intros s; cbn [startsWith].
  - split; [by exists s|done].
  - destruct s as [|c s].
    + split; [done|]. by intros (r & ?).
    + rewrite andb_true_iff, Z.eqb_eq, IH. split.
      * intros (-> & r & ->). by exists r.
      * intros (r & [= -> ->]). split; [done|]. by exists r.
Qed.

Lemma indexOf_at_spec p s pos i :
  indexOf_at p s pos = Some i ->
  (pos <= i)%nat /\ startsWith p (drop (i - pos) s) = true.
Proof.
  revert pos. induction s as [|c s IH]; intros pos; cbn [indexOf_at].
  - destruct (startsWith p []) eqn:Hp; [|done].
    intros [= <-]. by rewrite Nat.sub_diag.
  - destruct (startsWith p (c :: s)) eqn:Hp.
    + intros [= <-]. by rewrite Nat.sub_diag.
    + intros [Hle H]%IH. split; [lia|].
      replace (i - pos)%nat with (S (i - S pos)) by lia. done.
Qed.

Lemma indexOf_spec raw p from i :
  indexOf raw p from = Some i ->
  (from `min` length raw <= i)%nat
  /\ exists r, drop i raw = p ++ r.
Proof.
  unfold indexOf. intros [Hle H]%indexOf_at_spec. split; [done|].
  apply startsWith_spec. rewrite drop_drop in H.
  by replace (from `min` length raw + (i - from `min` length raw))%nat
    with i in H by lia.
Qed.

Lemma drop_app_length_le (s p r : jsstring) i :
  drop i s = p ++ r -> (0 < length p)%nat -> (i + length p <= length s)%nat.
Proof.
  intros H Hp. apply (f_equal length) in H.
  rewrite length_drop, length_app in H. lia.
Qed.

Lemma tme_prefix_length : length tme_prefix = 13%nat.
Proof. reflexivity. Qed.

Lemma trimStart_keeps a b c :
  is_js_space c = false -> exists a', trimStart (a ++ c :: b) = a' ++ c :: b.
Proof.
  intros Hc. induction a as [|x a IH]; cbn [app trimStart].
  - rewrite Hc. by exists [].
  - destruct (is_js_space x); [done|]. by exists (x :: a).
Qed.

(** Trimming keeps a link prefix at the front. *)
Lemma trim_keeps_prefix x :
  exists y, trim (tme_prefix ++ x) = tme_prefix ++ y.
Proof.
  assert (E1 : tme_prefix = 104 :: js "ttps://t.me/")
    by (vm_compute; reflexivity).
  assert (E2 : rev tme_prefix = 47 :: rev (js "https://t.me"))
    by (vm_compute; reflexivity).
  assert (E3 : rev (rev (js "https://t.me")) ++ [47] = tme_prefix)
    by (vm_compute; reflexivity).
  assert (H1 : trimStart (tme_prefix ++ x) = tme_prefix ++ x)
    by (rewrite E1; reflexivity).
  unfold trim, trimEnd. rewrite H1, rev_app_distr, E2.
  destruct (trimStart_keeps (rev x) (rev (js "https://t.me")) 47)
    as [a' ->]; [done|].
  rewrite rev_app_distr. cbn [rev]. rewrite E3.
  by exists (rev a').
Qed.

Lemma comma_not_in_prefix j r :
  (j < 13)%nat -> startsWith (js ",") (drop j (tme_prefix ++ r)) = false.
Proof.
  intros Hj.
  do 13 (destruct j as [|j]; [vm_compute; reflexivity|]). lia.
Qed.

(** One round of the loop: where the item ends, and what it is. *)
Lemma link_end_spec raw idx r :
  drop idx raw = tme_prefix ++ r ->
  let end0 := indexOf raw (js ",") idx in
  let nextPrefix := indexOf raw tme_prefix (idx + length tme_prefix) in
  let end1 :=
    match nextPrefix, end0 with
    | Some np, None => Some np
    | Some np, Some e => if (np <? e)%nat then Some np else Some e
    | None, _ => end0
    end in
  let end2 := default (length raw) end1 in
  (idx + 13 <= end2 <= length raw)%nat.
Proof.
  intros Hd end0 nextPrefix end1 end2.
  pose proof (drop_app_length_le _ _ _ _ Hd) as Hlen.
  rewrite tme_prefix_length in *. specialize (Hlen ltac:(lia)).
  assert (He : forall e, end0 = Some e -> (idx + 13 <= e < length raw)%nat).
  { intros e [Hle [r' Hr']]%indexOf_spec.
    pose proof (drop_app_length_le _ _ _ _ Hr') as Hl.
    change (length (js ",")) with 1%nat in Hl. specialize (Hl ltac:(lia)).
    split; [|lia].
    destruct (decide (idx + 13 <= e)%nat) as [|Hlt]; [done|].
    exfalso. assert (Hj : (e - idx < 13)%nat) by lia.
    pose proof (comma_not_in_prefix (e - idx) r Hj) as Hno.
    rewrite <- Hd, drop_drop in Hno.
    replace (idx + (e - idx))%nat with e in Hno by lia.
    rewrite Hr' in Hno.
    assert (startsWith (js ",") (js "," ++ r') = true); [|congruence].
    apply startsWith_spec. by exists r'. }
  assert (Hn : forall np, nextPrefix = Some np ->
                          (idx + 13 <= np < length raw)%nat).
  { intros np [Hle [r' Hr']]%indexOf_spec.
    pose proof (drop_app_length_le _ _ _ _ Hr') as Hl.
    rewrite tme_prefix_length in Hl, Hle. specialize (Hl ltac:(lia)). lia. }
  unfold end2, end1.
  destruct nextPrefix as [np|], end0 as [e|]; simpl;
    try (specialize (Hn _ eq_refl)); try (specialize (He _ eq_refl));
    try case_match; simpl; lia.
Qed.

Lemma collect_links_spec fuel raw idx matches :
  (exists r, drop idx raw = tme_prefix ++ r) ->
  (length raw - idx <= fuel)%nat ->
  Forall (fun l => exists y, l = tme_prefix ++ y) matches ->
  exists links,
    collect_links fuel raw idx matches = Some links
    /\ links <> []
    /\ Forall (fun l => exists y, l = tme_prefix ++ y) links.
Proof.
  revert idx matches. induction fuel as [|fuel IH];
    intros idx matches [r Hd] Hfuel Hm.
  - pose proof (drop_app_length_le _ _ _ _ Hd) as Hlen.
    rewrite tme_prefix_length in Hlen. specialize (Hlen ltac:(lia)). lia.
  - cbn [collect_links].
    pose proof (link_end_spec raw idx r Hd) as Hend. cbn zeta in Hend.
    set (end2 := default (length raw) _) in *.
    assert (Hitem : exists y, trim (slice raw idx end2) = tme_prefix ++ y).
    { unfold slice. rewrite Hd.
      rewrite take_app_ge by (rewrite tme_prefix_length; lia).
      apply trim_keeps_prefix. }
    destruct Hitem as [y Hy]. rewrite Hy.
    assert (Ht : truthy (tme_prefix ++ y) = true) by (by vm_compute).
    rewrite Ht.
    assert (Hm' : Forall (fun l => exists y, l = tme_prefix ++ y)
                         (matches ++ [tme_prefix ++ y])).
    { apply Forall_app. split; [done|]. constructor; [by exists y|done]. }
    destruct (indexOf raw tme_prefix end2) as [idx'|] eqn:Hnext.
    + apply indexOf_spec in Hnext as [Hle [r' Hr']].
      pose proof (drop_app_length_le _ _ _ _ Hr') as Hl.
      rewrite tme_prefix_length in Hl. specialize (Hl ltac:(lia)).
      apply IH; [by exists r'|lia|done].
    + eexists. split; [done|]. split; [|done]. by destruct matches.
Qed.

Lemma Set_from_nonempty l : l <> [] -> Set_from l [] <> [].
Proof. by destruct l. Qed.

(** X20: when the raw string holds a [https://t.me/] link, the loop of the
    parser ends within its fuel and the parser returns a list that is
    not empty, holds no link twice, and holds only strings that start
    with [https://t.me/]. *)
Theorem sponsor_links_found (raw : jsstring) :
  is_Some (indexOf raw tme_prefix 0) ->
  exists links,
    normalizeSponsorLinks raw = Some links
    /\ links <> []
    /\ NoDup links
    /\ Forall (fun l => exists y, l = tme_prefix ++ y) links.
Proof.
  intros [idx Hidx]. unfold normalizeSponsorLinks. rewrite Hidx.
  pose proof Hidx as [_ Hr]%indexOf_spec.
  assert (Hraw : truthy raw = true).
  { destruct Hr as [r Hr]. apply drop_app_length_le in Hr;
      rewrite tme_prefix_length in *; [|lia].
    destruct raw; [|done]. simpl in Hr. lia. }
  rewrite Hraw. cbn [negb].
  destruct (collect_links_spec (length raw) raw idx [] Hr ltac:(lia)
              ltac:(constructor)) as (matches & -> & Hne & Hall).
  destruct matches as [|m ms]; [done|].
  exists (Set_from (m :: ms) []). split; [done|].
  split; [by apply Set_from_nonempty|]. split; [apply Set_from_NoDup|].
  apply Forall_forall. intros l [Hl _]%Set_from_fresh.
  by apply (proj1 (Forall_forall _ _) Hall).
Qed.

Lemma trimStart_elem x s : x ∈ trimStart s -> x ∈ s.
Proof.
  induction s as [|c s IH]; cbn [trimStart]; [done|].
  destruct (is_js_space c); [|done]. intros H. right. by apply IH.
Qed.

Lemma trim_elem x s : x ∈ trim s -> x ∈ s.
Proof.
  unfold trim, trimEnd. rewrite list_elem_of_In, <- in_rev.
  rewrite <- list_elem_of_In. intros H%trimStart_elem.
  apply trimStart_elem. by rewrite list_elem_of_In, in_rev, <- list_elem_of_In.
Qed.

Lemma split_no_sep sep s :
  Forall (fun piece => sep ∉ piece) (split sep s).
Proof.
  induction s as [|c s IH]; cbn [split].
  - constructor; [|done]. by intros ?%elem_of_nil.
  - destruct (Z.eqb_spec c sep) as [->|Hne].
    + constructor; [|done]. by intros ?%elem_of_nil.
    + destruct (split sep s) as [|w ws]; [|inversion IH; subst].
      * constructor; [|done]. intros [->|?%elem_of_nil]%elem_of_cons; done.
      * constructor; [|done]. intros [->|?]%elem_of_cons; done.
Qed.

(** X21: when the raw string holds no [https://t.me/] link, the parser
    returns the pieces between the commas, trimmed, without the empty
    ones and in their order; no entry is empty and none holds a comma.
    Equal pieces are all kept. *)
Theorem sponsor_links_fallback (raw : jsstring) :
  indexOf raw tme_prefix 0 = None ->
  normalizeSponsorLinks raw
  = Some (List.filter truthy (List.map trim (split 44 raw)))
  /\ Forall (fun l => l <> [] /\ 44 ∉ l)
            (List.filter truthy (List.map trim (split 44 raw))).
Proof.
  intros Hnone. split.
  - unfold normalizeSponsorLinks. rewrite Hnone.
    destruct raw as [|c raw]; [done|]. done.
  - apply Forall_forall. intros l Hl.
    apply list_elem_of_In, filter_In in Hl as [Hl Ht].
    split; [by apply truthy_nonempty|].
    apply in_map_iff in Hl as (piece & <- & Hpiece).
    intros H44%trim_elem.
    pose proof (split_no_sep 44 raw) as Hsplit.
    apply (proj1 (Forall_forall _ _) Hsplit piece); [|done].
    by apply list_elem_of_In.
Qed.

(** ** The copy script of the page *)

Lemma page_after_value_split :
  exists pre, page_after_value = pre ++ js "const textToCopy = ".
Proof.
  eexists (firstn (length page_after_value - 19) page_after_value).
  vm_compute. reflexivity.
Qed.

Lemma page_tail_split : exists post, page_tail = js ";" ++ post.
Proof. exists (tail page_tail). vm_compute. reflexivity. Qed.

(** X22: every variant of the page, the not-found one too, hands the full
    URL to the copy script: for a URL of plain code units the script
    holds the assignment of the URL, as it is, between double quotes. *)
Theorem copy_script_gets_url (fullUrl : jsstring) (row : option request)
    (notFound : bool) :
  forallb json_plain fullUrl = true ->
  occurs_in (js "const textToCopy = " ++ dq ++ fullUrl ++ dq ++ js ";")
            (buildCopyHtml fullUrl row notFound).
Proof.
  intros Hplain. destruct page_after_value_split as [pre Hpre].
  destruct page_tail_split as [post Hpost].
  unfold buildCopyHtml, JSON_stringify.
  rewrite (quote_json_plain _ Hplain), Hpre, Hpost. clear Hpre Hpost.
  generalize page_head (page_title notFound) page_after_title
    page_after_heading (page_description fullUrl notFound) page_after_desc
    (value_block (displayValue row)) (js "const textToCopy = ") (js ";") dq.
  intros hd ti at_ ah de ad vb assign semi q.
  exists (hd ++ ti ++ at_ ++ ti ++ ah ++ de ++ ad ++ vb ++ pre), post.
  rewrite <- !app_assoc. reflexivity.
Qed.

Lemma is_hex_digit d : 0 <= d < 16 -> is_hex (hex_digit d) = true.
Proof. unfold is_hex, hex_digit. intros H. case_match; lia. Qed.

Lemma json_body_escape c rest :
  0 <= c < 65536 ->
  json_body_ok (unicode_escape c ++ rest) = json_body_ok rest.
Proof.
  intros Hc. unfold unicode_escape. cbn [app json_body_ok].
  change (92 =? 92) with true. change (117 =? 34) with false.
  change (117 =? 92) with false. change (117 =? 47) with false.
  change (117 =? 98) with false. change (117 =? 102) with false.
  change (117 =? 110) with false. change (117 =? 114) with false.
  change (117 =? 116) with false. change (117 =? 117) with true.
  cbn [orb].
  rewrite !is_hex_digit; [done|..].
  - apply Z.mod_pos_bound. lia.
  - apply Z.mod_pos_bound. lia.
  - apply Z.mod_pos_bound. lia.
  - split; [apply Z.div_pos; lia|apply Z.div_lt_upper_bound; lia].
Qed.

Lemma json_body_short e rest :
  (e =? 34) || (e =? 92) || (e =? 47) || (e =? 98) || (e =? 102)
  || (e =? 110) || (e =? 114) || (e =? 116) = true ->
  json_body_ok (92 :: e :: rest) = json_body_ok rest.
Proof. intros He. cbn [json_body_ok]. change (92 =? 92) with true. by rewrite He. Qed.

Lemma json_body_plain c rest :
  32 <= c -> c <> 34 -> c <> 92 ->
  json_body_ok (c :: rest) = json_body_ok rest.
Proof.
  intros H1 H2 H3. cbn [json_body_ok].
  destruct (Z.eqb_spec c 92) as [|_]; [done|].
  destruct (Z.leb_spec 32 c) as [_|]; [|lia].
  destruct (Z.eqb_spec c 34) as [|_]; [done|]. done.
Qed.

Lemma quote_json_well_formed (s : jsstring) :
  Forall (fun c => 0 <= c < 65536) s ->
  json_body_ok (quote_json s) = true.
Proof.
  assert (H : forall n s, (length s <= n)%nat ->
                Forall (fun c => 0 <= c < 65536) s ->
                json_body_ok (quote_json s) = true).
  { clear s. induction n as [|n IH]; intros s Hlen Hs.
    - destruct s; [done|]. simpl in Hlen. lia.
    - destruct s as [|c r]; [done|].
      apply Forall_cons in Hs as [Hc Hr]. simpl in Hlen.
      assert (IHr : json_body_ok (quote_json r) = true)
        by (apply IH; [lia|done]).
      cbn [quote_json].
      repeat (case_match;
              [subst; rewrite ?(json_body_short _ _ eq_refl); exact IHr|]).
      case_match; [by rewrite json_body_escape|].
      case_match.
      + destruct r as [|d r']; [by rewrite <- (app_nil_r (unicode_escape c)),
                                     json_body_escape|].
        case_match; [|by rewrite json_body_escape].
        apply Forall_cons in Hr as [Hd Hr'].
        unfold is_low_surrogate in *.
        rewrite !json_body_plain by lia.
        apply IH; [simpl in Hlen; lia|done].
      + case_match; [by rewrite json_body_escape|].
        rewrite json_body_plain by lia. exact IHr. }
  by apply (H (length s)).
Qed.

Lemma hex_value_digit d : 0 <= d < 16 -> hex_value (hex_digit d) = Some d.
Proof.
  unfold hex_value, hex_digit. intros H.
  destruct (Z.ltb_spec d 10).
  - destruct (Z.leb_spec 48 (48 + d)); [|lia].
    destruct (Z.leb_spec (48 + d) 57); [|lia]. cbn [andb]. f_equal. lia.
  - destruct (Z.leb_spec 48 (87 + d)); [|lia].
    destruct (Z.leb_spec (87 + d) 57); [lia|].
    destruct (Z.leb_spec 97 (87 + d)); [|lia].
    destruct (Z.leb_spec (87 + d) 102); [|lia]. cbn [andb]. f_equal. lia.
Qed.

Lemma json_unquote_escape c rest :
  0 <= c < 65536 ->
  json_unquote (unicode_escape c ++ rest)
  = option_map (cons c) (json_unquote rest).
Proof.
  intros Hc. unfold unicode_escape. cbn [app json_unquote].
  change (92 =? 92) with true. change (117 =? 117) with true. cbn iota.
  rewrite !hex_value_digit.
  - destruct (json_unquote rest); [|done]. cbn [option_map]. do 2 f_equal.
    Z.div_mod_to_equations. lia.
  - apply Z.mod_pos_bound. lia.
  - apply Z.mod_pos_bound. lia.
  - apply Z.mod_pos_bound. lia.
  - split; [apply Z.div_pos; lia|]. apply Z.div_lt_upper_bound; lia.
Qed.

Lemma json_unquote_short e v rest :
  short_escape e = Some v ->
  json_unquote (92 :: e :: rest) = option_map (cons v) (json_unquote rest).
Proof.
  intros He. cbn [json_unquote]. change (92 =? 92) with true. cbn iota.
  destruct (Z.eqb_spec e 117) as [->|_]; [by vm_compute in He|].
  rewrite He. by destruct (json_unquote rest).
Qed.

Lemma json_unquote_plain c rest :
  32 <= c -> c <> 34 -> c <> 92 ->
  json_unquote (c :: rest) = option_map (cons c) (json_unquote rest).
Proof.
  intros H1 H2 H3. cbn [json_unquote].
  destruct (Z.eqb_spec c 92) as [|_]; [done|].
  destruct (Z.ltb_spec c 32) as [|_]; [lia|].
  destruct (Z.eqb_spec c 34) as [|_]; [done|]. done.
Qed.

(** Read by the grammar of JSON, the body that [JSON.stringify] writes
    denotes the string it was given. *)
Lemma quote_json_unquote (s : jsstring) :
  Forall (fun c => 0 <= c < 65536) s ->
  json_unquote (quote_json s) = Some s.
Proof.
  assert (H : forall n s, (length s <= n)%nat ->
                Forall (fun c => 0 <= c < 65536) s ->
                json_unquote (quote_json s) = Some s).
  { clear s. induction n as [|n IH]; intros s Hlen Hs.
    - destruct s; [done|]. simpl in Hlen. lia.
    - destruct s as [|c r]; [done|].
      apply Forall_cons in Hs as [Hc Hr]. simpl in Hlen.
      assert (IHr : json_unquote (quote_json r) = Some r)
        by (apply IH; [lia|done]).
      cbn [quote_json].
      destruct (Z.eqb_spec c 8) as [->|?];
        [cbn [app]; by rewrite (json_unquote_short 98 8), IHr|].
      destruct (Z.eqb_spec c 9) as [->|?];
        [cbn [app]; by rewrite (json_unquote_short 116 9), IHr|].
      destruct (Z.eqb_spec c 10) as [->|?];
        [cbn [app]; by rewrite (json_unquote_short 110 10), IHr|].
      destruct (Z.eqb_spec c 12) as [->|?];
        [cbn [app]; by rewrite (json_unquote_short 102 12), IHr|].
      destruct (Z.eqb_spec c 13) as [->|?];
        [cbn [app]; by rewrite (json_unquote_short 114 13), IHr|].
      destruct (Z.eqb_spec c 34) as [->|?];
        [cbn [app]; by rewrite (json_unquote_short 34 34), IHr|].
      destruct (Z.eqb_spec c 92) as [->|?];
        [cbn [app]; by rewrite (json_unquote_short 92 92), IHr|].
      destruct (Z.ltb_spec c 32);
        [by rewrite json_unquote_escape, IHr|].
      destruct (is_high_surrogate c) eqn:Hhi.
      + destruct r as [|d r'].
        { rewrite <- (app_nil_r (unicode_escape c)).
          by rewrite json_unquote_escape. }
        destruct (is_low_surrogate d) eqn:Hlo;
          [|by rewrite json_unquote_escape, IHr].
        apply Forall_cons in Hr as [Hd Hr'].
        unfold is_low_surrogate in Hlo.
        rewrite !json_unquote_plain by lia.
        rewrite IH; [done|simpl in Hlen; lia|done].
      + destruct (is_low_surrogate c) eqn:Hlo;
          [by rewrite json_unquote_escape, IHr|].
        rewrite json_unquote_plain by lia. by rewrite IHr. }
  by apply (H (length s)).
Qed.

(** X23: in every variant of the page and for every URL of code units,
    the string literal of the copy script denotes the URL: between
    [const textToCopy = ] and the semicolon stands, in double quotes,
    the body that [JSON.stringify] writes for the URL; that body is
    well formed by the grammar of JSON strings, with each double quote,
    backslash and control character escaped, and read by that grammar
    it denotes the URL again, code unit for code unit.  The statement
    is about the string literal alone: how an HTML parser delimits the
    script element around it is no part of it. *)
Theorem copy_script_literal_well_formed (fullUrl : jsstring)
    (row : option request) (notFound : bool) :
  Forall (fun c => 0 <= c < 65536) fullUrl ->
  let body := quote_json fullUrl in
  occurs_in (js "const textToCopy = " ++ dq ++ body ++ dq ++ js ";")
            (buildCopyHtml fullUrl row notFound)
  /\ json_body_ok body = true
  /\ json_unquote body = Some fullUrl.
Proof.
  intros Hrange body.
  split; [|split; [by apply quote_json_well_formed
                  |by apply quote_json_unquote]].
  unfold body. clear body.
  destruct page_after_value_split as [pre Hpre].
  destruct page_tail_split as [post Hpost].
  unfold buildCopyHtml, JSON_stringify. rewrite Hpre, Hpost.
  clear Hpre Hpost.
  generalize page_head (page_title notFound) page_after_title
    page_after_heading (page_description fullUrl notFound) page_after_desc
    (value_block (displayValue row)) (js "const textToCopy = ") (js ";") dq
    (quote_json fullUrl).
  intros hd ti at_ ah de ad vb assign semi q body.
  exists (hd ++ ti ++ at_ ++ ti ++ ah ++ de ++ ad ++ vb ++ pre), post.
  rewrite <- !app_assoc. reflexivity.
Qed.

(** ** Whitespace around the text *)

Lemma trimStart_idem s : trimStart (trimStart s) = trimStart s.
Proof.
  induction s as [|c s IH]; [done|]. cbn [trimStart].
  destruct (is_js_space c) eqn:Hc; [done|]. cbn [trimStart]. by rewrite Hc.
Qed.

Lemma trimStart_head s :
  trimStart s = [] \/ exists c r, trimStart s = c :: r /\ is_js_space c = false.
Proof.
  induction s as [|c s IH]; [by left|]. cbn [trimStart].
  destruct (is_js_space c) eqn:Hc; [done|]. right. by exists c, s.
Qed.

Lemma trimStart_fixed c r : is_js_space c = false -> trimStart (c :: r) = c :: r.
Proof. intros Hc. cbn [trimStart]. by rewrite Hc. Qed.

Lemma trimEnd_head c r :
  is_js_space c = false -> exists r', trimEnd (c :: r) = c :: r'.
Proof.
  intros Hc. unfold trimEnd. cbn [rev].
  destruct (trimStart_keeps (rev r) [] c Hc) as [a' ->].
  rewrite rev_app_distr. cbn [rev app]. by eexists.
Qed.

Lemma trimEnd_idem s : trimEnd (trimEnd s) = trimEnd s.
Proof. unfold trimEnd. by rewrite rev_involutive, trimStart_idem. Qed.

Lemma trim_idem s : trim (trim s) = trim s.
Proof.
  unfold trim. destruct (trimStart_head s) as [->|(c & r & -> & Hc)].
  - reflexivity.
  - destruct (trimEnd_head c r Hc) as [r' Hr']. rewrite Hr'.
    rewrite (trimStart_fixed c r' Hc). rewrite <- Hr'. apply trimEnd_idem.
Qed.

(** X24: white space around the text never matters to the text handler:
    a text and its trimmed form are handled alike, in every world and
    for every sender; and trimming twice changes nothing more. *)
Theorem text_whitespace_ignored (uid : Z) (text : jsstring) (w : world) :
  on_text uid (trim text) w = on_text uid text w
  /\ trim (trim text) = trim text.
Proof.
  split; [|apply trim_idem]. unfold on_text. by rewrite trim_idem.
Qed.

(** ** Instances of the further properties *)

Lemma get_link_starts_flow_witness :
  exists w' db',
    on_get_link BOT_OWNER_ID (sample_world (Some db_awaiting))
    = (Returned tt, w')
    /\ pool w' = Some db'
    /\ user_states db' !! BOT_OWNER_ID = Some awaiting_request.
Proof.
  destruct (get_link_starts_flow (sample_world (Some db_awaiting))
              db_awaiting) as (w' & db' & H1 & H2 & _ & H4 & _).
  - reflexivity.
  - vm_compute. reflexivity.
  - reflexivity.
  - exists w', db'. split; [exact H1|]. split; [exact H2|exact H4].
Defined.

Lemma get_link_without_user_witness :
  exists w',
    on_get_link BOT_OWNER_ID (sample_world (Some db_empty))
    = (Returned tt, w')
    /\ pool w' = Some db_empty.
Proof.
  destruct (get_link_without_user (sample_world (Some db_empty)) db_empty)
    as (w' & H1 & H2 & _).
  - reflexivity.
  - right. vm_compute. reflexivity.
  - exists w'. split; [exact H1|exact H2].
Defined.

Lemma start_registers_and_greets_witness :
  exists w' db',
    on_start guest_user (sample_world (Some db_empty)) = (Returned tt, w')
    /\ pool w' = Some db'
    /\ users db' !! 42 = Some (user_row guest_user).
Proof.
  destruct (start_registers_and_greets guest_user
              (sample_world (Some db_empty)) db_empty)
    as (w' & db' & H1 & H2 & H3 & _).
  - reflexivity.
  - reflexivity.
  - exists w', db'. split; [exact H1|]. split; [exact H2|exact H3].
Defined.

Lemma start_twice_last_wins_witness :
  pool (snd (on_start owner_user
               (snd (on_start owner_user (sample_world (Some db_empty))))))
  = pool (snd (on_start owner_user (sample_world (Some db_empty)))).
Proof.
  destruct (start_twice_last_wins owner_user owner_user
              (sample_world (Some db_empty)) db_empty) as [_ H].
  - reflexivity.
  - reflexivity.
  - reflexivity.
  - exact H.
Defined.

Lemma start_failure_is_silent_witness :
  trace (snd (on_start guest_user (faulty_world (Some db_empty) [true])))
  = [Query UpsertUser; ConsoleError (js "Error in /start:")].
Proof.
  rewrite (start_failure_is_silent guest_user
             (faulty_world (Some db_empty) [true]) db_empty).
  - reflexivity.
  - reflexivity.
  - reflexivity.
Defined.

Lemma text_outside_flow_ignored_witness :
  exists w',
    on_text BOT_OWNER_ID (js "42") (sample_world (Some db_empty))
    = (Returned tt, w')
    /\ pool w' = Some db_empty
    /\ trace w' = [Query SelectState].
Proof.
  destruct (text_outside_flow_ignored BOT_OWNER_ID (js "42")
              (sample_world (Some db_empty)) db_empty) as (w' & H).
  - reflexivity.
  - reflexivity.
  - right. vm_compute. discriminate.
  - exists w'. exact H.
Defined.

Lemma text_lookup_failure_witness :
  trace (snd (on_text 42 (js "hi") (faulty_world (Some db_awaiting) [true])))
  = [Query SelectState; ConsoleError (js "Error handling text:");
     Reply error_msg []].
Proof.
  rewrite (text_lookup_failure 42 (js "hi")
             (faulty_world (Some db_awaiting) [true]) db_awaiting).
  - reflexivity.
  - reflexivity.
  - reflexivity.
Defined.

Lemma no_database_no_flow_witness :
  on_text BOT_OWNER_ID (js "42") (sample_world None)
  = (Returned tt, sample_world None).
Proof.
  destruct (no_database_no_flow (sample_world None)) as [_ H].
  - reflexivity.
  - apply H. reflexivity.
Defined.

Lemma save_failure_keeps_flow_open_witness :
  pool (snd (on_text BOT_OWNER_ID (js "42")
               (faulty_world (Some db_awaiting) [false; true])))
  = Some db_awaiting.
Proof.
  rewrite (save_failure_keeps_flow_open
             (faulty_world (Some db_awaiting) [false; true]) db_awaiting
             (js "42")).
  - reflexivity.
  - reflexivity.
  - vm_compute. reflexivity.
  - reflexivity.
  - left. split; vm_compute; reflexivity.
Defined.

Lemma delete_failure_hides_link_witness :
  let w := faulty_world (Some db_awaiting) [false; false; true] in
  exists db',
    pool (snd (on_text BOT_OWNER_ID (js "42") w)) = Some db'
    /\ user_states db' !! BOT_OWNER_ID = Some awaiting_request
    /\ requests db' !! next_token w = Some (accepted_request w (js "42")).
Proof.
  intros w.
  destruct (delete_failure_hides_link w db_awaiting (js "42"))
    as (H1 & H2 & H3).
  - reflexivity.
  - vm_compute. reflexivity.
  - vm_compute. reflexivity.
  - reflexivity.
  - left. split; vm_compute; reflexivity.
  - eexists. rewrite H1. split; [reflexivity|]. split; [exact H3|exact H2].
Defined.

Lemma flow_is_one_shot_witness :
  let w1 := snd (on_text BOT_OWNER_ID (js "42")
                   (sample_world (Some db_awaiting))) in
  on_text BOT_OWNER_ID (js "43") w1 = (Returned tt, tick SelectState w1).
Proof.
  intros w1.
  destruct (flow_is_one_shot (sample_world (Some db_awaiting)) db_awaiting
              (js "42") (js "43")) as [H _].
  - reflexivity.
  - vm_compute. reflexivity.
  - vm_compute. reflexivity.
  - reflexivity.
  - left. split; vm_compute; reflexivity.
  - exact H.
Defined.

Lemma accepted_flow_frame_witness :
  exists db1,
    pool (snd (on_text BOT_OWNER_ID (js "https://t.me/nft/1")
                 (sample_world (Some db_awaiting)))) = Some db1
    /\ user_states db1 !! BOT_OWNER_ID = None
    /\ users db1 = users db_awaiting.
Proof.
  destruct (accepted_flow_frame (sample_world (Some db_awaiting)) db_awaiting
              (js "https://t.me/nft/1"))
    as (db1 & H1 & _ & _ & H4 & _ & H6).
  - reflexivity.
  - vm_compute. reflexivity.
  - vm_compute. reflexivity.
  - reflexivity.
  - right. vm_compute. reflexivity.
  - exists db1. split; [exact H1|]. split; [exact H4|exact H6].
Defined.

Lemma whole_flow_from_start_witness :
  let w := sample_world (Some db_empty) in
  let w3 := snd (on_text BOT_OWNER_ID (js "42")
                   (snd (on_get_link BOT_OWNER_ID
                           (snd (on_start owner_user w))))) in
  exists page,
    fst (copy_page (next_token w) w3)
    = Returned {| status := 200; body := page |}
    /\ occurs_in (value_open ++ js "42 звёзд" ++ div_close) page.
Proof.
  intros w w3.
  destruct (whole_flow_from_start owner_user w db_empty (js "42"))
    as (_ & page & H1 & H2).
  - reflexivity.
  - reflexivity.
  - reflexivity.
  - left. split; [vm_compute; reflexivity|].
    vm_compute. split; [reflexivity|discriminate].
  - exists page. split; [exact H1|].
    replace (js "42 звёзд")
      with (if isNumber (trim (js "42"))
            then decimal (digits_value (trim (js "42"))) ++ js " звёзд"
            else trim (js "42"))
      by (vm_compute; reflexivity).
    exact H2.
Defined.

Lemma not_positive_iff_zeros_witness :
  le_zero (parseInt10 (js "000")) = true.
Proof.
  apply (not_positive_iff_zeros (js "000")).
  - vm_compute. reflexivity.
  - vm_compute. reflexivity.
Defined.

Lemma generateRandomToken_any_length_witness :
  exists token,
    fst (generateRandomToken 5 (sample_world None)) = Returned token
    /\ length token = 5%nat.
Proof.
  destruct (generateRandomToken_any_length 5 (sample_world None))
    as (token & H1 & _ & _ & H4).
  exists token. split; [by rewrite H1|].
  apply H4. vm_compute. reflexivity.
Defined.

Lemma sponsor_keyboard_rows_witness :
  let links := [js "https://t.me/a"; js "https://t.me/b"; js "https://t.me/c"] in
  length (buildSponsorKeyboard links) = 2%nat
  /\ concat (buildSponsorKeyboard links) !! 2%nat
     = Some (UrlButton (js "Спонсор 3") (js "https://t.me/c"))
  /\ buildSponsorKeyboard links !! 0%nat
     = Some [UrlButton (js "Спонсор 1") (js "https://t.me/a");
             UrlButton (js "Спонсор 2") (js "https://t.me/b")]
  /\ buildSponsorKeyboard links !! 1%nat
     = Some [UrlButton (js "Спонсор 3") (js "https://t.me/c")].
Proof.
  intros links.
  destruct (sponsor_keyboard_rows links) as (_ & _ & H3 & H4 & H5 & _).
  split; [|split; [|split]].
  - change (length links) with 3%nat in H3.
    change (3 + 3 mod 2)%nat with 4%nat in H3. lia.
  - rewrite (H4 2%nat (js "https://t.me/c")); [|reflexivity].
    vm_compute. reflexivity.
  - rewrite (H5 0%nat). vm_compute. reflexivity.
  - rewrite (H5 1%nat). vm_compute. reflexivity.
Defined.

Lemma stringify_plain_verbatim_witness :
  JSON_stringify (js "https://x.io/c/</script>")
  = dq ++ js "https://x.io/c/</script>" ++ dq.
Proof.
  apply (stringify_plain_verbatim (js "https://x.io/c/</script>")).
  vm_compute. reflexivity.
Defined.

Lemma isUrl_iff_shape_witness : url_shape (js "HTTPs://t.me/nft/1?x=[2]").
Proof.
  apply (proj1 (isUrl_iff_shape (js "HTTPs://t.me/nft/1?x=[2]"))).
  vm_compute. reflexivity.
Defined.

Lemma sponsor_links_found_witness :
  exists links,
    normalizeSponsorLinks (js "x, https://t.me/a,https://t.me/a") = Some links
    /\ NoDup links.
Proof.
  destruct (sponsor_links_found (js "x, https://t.me/a,https://t.me/a"))
    as (links & H1 & _ & H3 & _).
  - vm_compute. eexists. reflexivity.
  - exists links. split; [exact H1|exact H3].
Defined.

Lemma sponsor_links_fallback_witness :
  normalizeSponsorLinks (js " a , ,b,")
  = Some (List.filter truthy (List.map trim (split 44 (js " a , ,b,")))).
Proof.
  destruct (sponsor_links_fallback (js " a , ,b,")) as [H _].
  - vm_compute. reflexivity.
  - exact H.
Defined.

Lemma copy_script_gets_url_witness :
  occurs_in (js "const textToCopy = " ++ dq ++ js "https://x.io/c/Ab1"
             ++ dq ++ js ";")
            (buildCopyHtml (js "https://x.io/c/Ab1") None true).
Proof.
  apply (copy_script_gets_url (js "https://x.io/c/Ab1") None true).
  vm_compute. reflexivity.
Defined.

Lemma copy_script_literal_well_formed_witness :
  let url := [34; 92; 10; 55357; 60] in
  quote_json url = [92; 34; 92; 92; 92; 110; 92; 117; 100; 56; 51; 100; 60]
  /\ occurs_in (js "const textToCopy = " ++ dq ++ quote_json url ++ dq
                ++ js ";")
               (buildCopyHtml url None true)
  /\ json_unquote (quote_json url) = Some url.
Proof.
  intros url. split; [vm_compute; reflexivity|].
  destruct (copy_script_literal_well_formed url None true)
    as (H1 & _ & H3).
  - repeat (constructor; [lia|]). constructor.
  - split; [exact H1|exact H3].
Defined.
